(** * Specialization-gain report generator: a shallow embedding

    This development embeds [scripts/gen_figs_specialization_gain.py] and
    proves the properties its specification states about it.

    The script is a linear pipeline:

      [load_metrics]  reads JSON-lines logs and normalises the records of
                      one study into observations;
      [summarize]     groups them by (family, model_role, routing_mode) and
                      computes the count and the mean correctness;
      [write_callouts_tex], [write_table_tex], [plot_specialization_gain],
      [plot_family_delta]
                      render the summary;
      [main]          runs them in that order.

    Modelling choices, all stated where they are made:
    - Python values decoded from JSON are the inductive [json].
    - Python [float] is IEEE-754 binary64, taken from the Standard Library's
      [SpecFloat] with [prec = 53] and [emax = 1024].
    - Python [str] is [string], the UTF-8 bytes of the text.
    - What the script takes from libraries and what rests on tables of
      Unicode or on the plotting library is not defined here but taken as
      a parameter, the class [Library]: [str.lower], [str.strip], [repr] of
      a [str] and of a [float], and whether a figure can be drawn. The
      file holds one instance, [example_lib], for text in ASCII.
      [json.loads] is a parameter of the loader in the same way.
    - Exceptions are values of [exn]; a computation that may raise returns
      an [outcome].
    - Files written by the script live in a [gmap string artifact]; a
      figure is what it plots, not the bytes of the PDF.
    - Of what the script prints, only the warning of [summarize] is kept. *)

From Stdlib Require Import ZArith List String Ascii Lia DecimalString Permutation Sorted.
From Stdlib Require Import SpecFloat.
From stdpp Require Import base option list strings gmap sorting.

Local Open Scope string_scope.
Local Open Scope Z_scope.
Local Open Scope list_scope.

(** ** Text in ASCII *)

(** The functions of this part act on ASCII characters only. They are the
    string functions of [example_lib], and the reference for what
    [str.lower] does to ASCII text. *)

Definition is_upper (c : ascii) : bool :=
  (65 <=? Z.of_nat (nat_of_ascii c)) && (Z.of_nat (nat_of_ascii c) <=? 90).

(** Lowercasing of one ASCII character. *)
Definition lower_ascii (c : ascii) : ascii :=
  if is_upper c then ascii_of_nat (nat_of_ascii c + 32) else c.

(** Lowercasing of the ASCII capitals of a text. *)
Fixpoint ascii_lower (s : string) : string :=
  match s with
  | EmptyString => EmptyString
  | String c s' => String (lower_ascii c) (ascii_lower s')
  end.

(** The text holds ASCII characters only. *)
Fixpoint ascii_text (s : string) : bool :=
  match s with
  | EmptyString => true
  | String c s' => (Z.of_nat (nat_of_ascii c) <? 128) && ascii_text s'
  end.

(** The ASCII characters that are whitespace for Python: tab, newline,
    vertical tab, form feed, carriage return, the four separators 28..31
    and the space. *)
Definition is_space (c : ascii) : bool :=
  let n := Z.of_nat (nat_of_ascii c) in
  ((9 <=? n) && (n <=? 13)) || ((28 <=? n) && (n <=? 32)).

Fixpoint ascii_lstrip (s : string) : string :=
  match s with
  | EmptyString => EmptyString
  | String c s' => if is_space c then ascii_lstrip s' else s
  end.

Fixpoint ascii_rstrip (s : string) : string :=
  match s with
  | EmptyString => EmptyString
  | String c s' =>
      match ascii_rstrip s' with
      | EmptyString => if is_space c then EmptyString else String c EmptyString
      | t => String c t
      end
  end.

(** Removal of ASCII whitespace at both ends. *)
Definition ascii_strip (s : string) : string := ascii_rstrip (ascii_lstrip s).

(** [sep.join(parts)]. *)
Fixpoint join (sep : string) (parts : list string) : string :=
  match parts with
  | [] => ""
  | [p] => p
  | p :: rest => p +:+ sep +:+ join sep rest
  end.

(** [str(n)] for a Python [int]. *)
Definition str_of_Z (z : Z) : string := NilZero.string_of_int (Z.to_int z).

Definition str_of_nat (n : nat) : string := str_of_Z (Z.of_nat n).

Fixpoint string_mem (c : ascii) (s : string) : bool :=
  match s with
  | EmptyString => false
  | String d s' => if Ascii.eqb c d then true else string_mem c s'
  end.

Definition hex_digit (n : nat) : ascii :=
  match n with
  | 0%nat => "0" | 1%nat => "1" | 2%nat => "2" | 3%nat => "3"
  | 4%nat => "4" | 5%nat => "5" | 6%nat => "6" | 7%nat => "7"
  | 8%nat => "8" | 9%nat => "9" | 10%nat => "a" | 11%nat => "b"
  | 12%nat => "c" | 13%nat => "d" | 14%nat => "e" | _ => "f"
  end%char.

(** The double quote character. *)
Definition dquote : ascii := "034"%char.

(** One character of [repr(s)] inside quotes of kind [q]. *)
Definition repr_char (q c : ascii) : string :=
  let n := nat_of_ascii c in
  if Ascii.eqb c q then String "\" (String c "")
  else if Ascii.eqb c "\" then "\\"
  else if Ascii.eqb c "010" then "\n"
  else if Ascii.eqb c "013" then "\r"
  else if Ascii.eqb c "009" then "\t"
  else if (n <? 32)%nat || (n =? 127)%nat
       then "\x" +:+ String (hex_digit (n / 16)) (String (hex_digit (n mod 16)) "")
  else String c "".

Fixpoint repr_chars (q : ascii) (s : string) : string :=
  match s with
  | EmptyString => EmptyString
  | String c s' => repr_char q c +:+ repr_chars q s'
  end.

(** [repr(s)] for a [str] of ASCII characters: single quotes, unless the
    text holds a single quote and no double quote. *)
Definition ascii_repr_str (s : string) : string :=
  let q : ascii :=
    if string_mem "'" s && negb (string_mem dquote s) then dquote else "'"%char in
  String q (repr_chars q s +:+ String q "").

(** ** Exceptions *)

Inductive exn : Type :=
| SystemExit (msg : string)
| AttributeError (msg : string)
| KeyError (key : string)
| IndexError (msg : string)
| ValueError (msg : string)
| RecursionError (msg : string)
| UnicodeDecodeError (msg : string)
| OSError (msg : string).

Inductive outcome (A : Type) : Type :=
| Ok (a : A)
| Raise (e : exn).

Arguments Ok {A} a.
Arguments Raise {A} e.

#[global] Instance outcome_ret : MRet outcome := fun A a => Ok a.

#[global] Instance outcome_bind : MBind outcome :=
  fun A B f m => match m with Ok a => f a | Raise e => Raise e end.

(** The exit status of the interpreter: 0 on normal return, 1 for
    [SystemExit] with a message and for any uncaught exception. *)
Definition exit_code {A} (r : outcome A) : Z :=
  match r with Ok _ => 0 | Raise _ => 1 end.

(** ** Python floats: IEEE-754 binary64 *)

Definition prec : Z := 53.
Definition emax : Z := 1024.

(** [float(z)] for a Python [int], rounding to nearest even. *)
Definition float_of_Z (z : Z) : spec_float := binary_normalize prec emax z 0 false.

Definition fmul : spec_float -> spec_float -> spec_float := SFmul prec emax.
Definition fsub : spec_float -> spec_float -> spec_float := SFsub prec emax.
Definition fdiv : spec_float -> spec_float -> spec_float := SFdiv prec emax.
Definition fleb : spec_float -> spec_float -> bool := SFleb.

(** [np.nan]. *)
Definition nan : spec_float := S754_nan.

(** The literals [0.0], [1.0] and [100.0]. *)
Definition f0 : spec_float := S754_zero false.
Definition f1 : spec_float := S754_finite false 4503599627370496 (-52).
Definition f100 : spec_float := S754_finite false 7036874417766400 (-46).

(** [num / den] rounded to the nearest integer, ties to even. *)
Definition round_half_even (num den : Z) : Z :=
  let q := num / den in
  let r := num mod den in
  match 2 * r ?= den with
  | Lt => q
  | Gt => q + 1
  | Eq => if Z.even q then q else q + 1
  end.

(** The number of tenths nearest to [m * 2^e]. *)
Definition tenths (m : positive) (e : Z) : Z :=
  match e with
  | Zneg p => round_half_even (Zpos m * 10) (2 ^ Zpos p)
  | _ => Zpos m * 10 * 2 ^ e
  end.

(** [format(x, ".1f")]: the exact value of [x] correctly rounded to one
    decimal, the sign kept on a result that rounds to zero. *)
Definition format_1f (x : spec_float) : string :=
  match x with
  | S754_nan => "nan"
  | S754_infinity s => if s then "-inf" else "inf"
  | S754_zero s => (if s then "-" else "") +:+ "0.0"
  | S754_finite s m e =>
      let t := tenths m e in
      (if s then "-" else "") +:+ str_of_Z (t / 10) +:+ "." +:+ str_of_Z (t mod 10)
  end.

(** ** [str.format] with one positional [float] argument *)

(** Where the scanner of [str.format] stands: in literal text, after an
    opening brace, inside a replacement field, after a closing brace. *)
Inductive fmt_state : Type :=
| FText
| FOpen
| FField (body : string)
| FClose.

Fixpoint before (stop : ascii -> bool) (s : string) : string :=
  match s with
  | EmptyString => EmptyString
  | String c s' => if stop c then EmptyString else String c (before stop s')
  end.

Fixpoint after (stop : ascii -> bool) (s : string) : string :=
  match s with
  | EmptyString => EmptyString
  | String c s' => if stop c then s' else after stop s'
  end.

Fixpoint all_digits (s : string) : bool :=
  match s with
  | EmptyString => true
  | String c s' =>
      ((48 <=? Z.of_nat (nat_of_ascii c)) && (Z.of_nat (nat_of_ascii c) <=? 57))
      && all_digits s'
  end.

Definition is_colon (c : ascii) : bool := Ascii.eqb c ":".
Definition is_dot_or_bracket (c : ascii) : bool := Ascii.eqb c "." || Ascii.eqb c "[".

(** One replacement field [{body}] applied to the argument tuple [(x,)];
    [auto] counts the automatically numbered fields met so far. A field
    with a name is looked up among the keyword arguments, of which there
    are none. Of the format specifications only [.1f] is provided;
    conversions ([!r]), fields nested in a specification and the check
    that manual and automatic numbering are not mixed are left out, none
    of which the templates of this script use. *)
Definition format_field (body : string) (auto : nat) (x : spec_float) : outcome string :=
  let field_name := before is_colon body in
  let spec := after is_colon body in
  let arg_name := before is_dot_or_bracket field_name in
  if String.eqb arg_name "" then
    match auto with
    | O => if String.eqb spec ".1f" then Ok (format_1f x)
           else Raise (ValueError "format specification not provided")
    | _ => Raise (IndexError
                    "Replacement index 1 out of range for positional args tuple")
    end
  else if all_digits arg_name then
    if String.eqb arg_name "0" then
      if String.eqb spec ".1f" then Ok (format_1f x)
      else Raise (ValueError "format specification not provided")
    else Raise (IndexError
                  ("Replacement index " +:+ arg_name
                   +:+ " out of range for positional args tuple"))
  else Raise (KeyError arg_name).

Fixpoint format_scan (st : fmt_state) (auto : nat) (s : string) (x : spec_float)
  : outcome string :=
  match s with
  | EmptyString =>
      match st with
      | FText => Ok ""
      | FOpen => Raise (ValueError "Single '{' encountered in format string")
      | FField _ => Raise (ValueError "expected '}' before end of string")
      | FClose => Raise (ValueError "Single '}' encountered in format string")
      end
  | String c s' =>
      match st with
      | FText =>
          if Ascii.eqb c "{" then format_scan FOpen auto s' x
          else if Ascii.eqb c "}" then format_scan FClose auto s' x
          else rest ← format_scan FText auto s' x; Ok (String c rest)
      | FOpen =>
          if Ascii.eqb c "{" then
            rest ← format_scan FText auto s' x; Ok (String "{" rest)
          else if Ascii.eqb c "}" then
            out ← format_field "" auto x;
            rest ← format_scan FText (S auto) s' x; Ok (out +:+ rest)
          else format_scan (FField (String c "")) auto s' x
      | FField body =>
          if Ascii.eqb c "}" then
            out ← format_field body auto x;
            rest ← format_scan FText
                     (if String.eqb (before is_dot_or_bracket (before is_colon body)) ""
                      then S auto else auto) s' x;
            Ok (out +:+ rest)
          else if Ascii.eqb c "{" then
            Raise (ValueError "unexpected '{' in field name")
          else format_scan (FField (body +:+ String c "")) auto s' x
      | FClose =>
          if Ascii.eqb c "}" then
            rest ← format_scan FText auto s' x; Ok (String "}" rest)
          else Raise (ValueError "Single '}' encountered in format string")
      end
  end.

(** [template.format(x)]. *)
Definition str_format (template : string) (x : spec_float) : outcome string :=
  format_scan FText 0 template x.

(** ** Data *)

(** What [json.loads] returns: [None], [bool], [int], [float], [str],
    [list] and [dict]. A [dict] is the list of its items in insertion
    order; its keys are pairwise distinct. *)
#[warnings="-register-all"]
Inductive json : Type :=
| JNull
| JBool (b : bool)
| JInt (z : Z)
| JFloat (f : spec_float)
| JStr (s : string)
| JArr (xs : list json)
| JObj (kvs : list (string * json)).

(** What a call of [json.loads] does: it returns a value, raises
    [json.JSONDecodeError], or raises another exception (a
    [RecursionError] on deep nesting, a [ValueError] on a number of too
    many digits). *)
Inductive decoded : Type :=
| Decoded (obj : json)
| JSONDecodeError
| DecodeRaises (e : exn).

(** One log file as the loop meets it: the lines it reads, and the
    exception that [open] or the reading raises after them, if any (a
    directory, bytes that are not text). *)
Record log_file : Type := LogFile {
  file_lines : list string;
  file_error : option exn
}.

Record group_key : Type := GroupKey {
  family : string;
  model_role : string;
  routing_mode : string
}.

(** One element of [records], later one row of the data frame [df]. *)
Record observation : Type := Observation {
  o_key : group_key;
  correct : bool
}.

(** One row of the frame [summary]. *)
Record agg_row : Type := AggRow {
  r_key : group_key;
  n : nat;
  accuracy : spec_float
}.

#[global] Instance group_key_eq_dec : EqDecision group_key.
Proof. solve_decision. Defined.

#[global] Instance observation_eq_dec : EqDecision observation.
Proof. solve_decision. Defined.

(** What the plotting functions draw; the bytes of the PDF are not
    modelled. *)
Inductive figure : Type :=
| GainFigure (families : list string) (acc_matrix : list (spec_float * spec_float))
| DeltaFigure (families : list string) (deltas : list spec_float).

Inductive artifact : Type :=
| TexFile (text : string)
| FigureFile (fig : figure).

Record arguments : Type := Arguments_ {
  logdir : string;
  pattern : string;
  outdir : string;
  datadir : string;
  study : string;
  arg_routing_mode : string
}.

(** ** What the script takes from libraries *)

(** [lower] is [str.lower], [strip] is [str.strip()], [repr_str] is [repr]
    on a [str], [float_repr] is [repr] on a [float]. [draw fig] is what
    the calls of the plotting library from [plt.subplots] to [fig.savefig]
    do with a figure: [None] when they draw and save it, [Some e] when
    they raise [e] (text of a tick label that the library cannot lay
    out) with nothing saved.

    The laws are the facts about these functions that the proofs use:
    lowercasing a second time changes nothing; only the empty text
    lowercases to the empty text; on ASCII text [str.lower] lowercases
    the capitals A to Z and nothing else; the [repr] of a [float] is not
    empty. *)
Class Library : Type := {
  lower : string -> string;
  strip : string -> string;
  repr_str : string -> string;
  float_repr : spec_float -> string;
  draw : figure -> option exn;
  lower_idem : forall s, lower (lower s) = lower s;
  lower_not_nil : forall s, lower s = "" -> s = "";
  lower_ascii_text : forall s, ascii_text s = true -> lower s = ascii_lower s;
  float_repr_not_nil : forall f, float_repr f <> ""
}.

Section Program.
Context `{lib : Library}.

(** ** Python values decoded from JSON *)

(** [repr(v)]. *)
Fixpoint py_repr (v : json) : string :=
  match v with
  | JNull => "None"
  | JBool true => "True"
  | JBool false => "False"
  | JInt z => str_of_Z z
  | JFloat f => float_repr f
  | JStr s => repr_str s
  | JArr xs => "[" +:+ join ", " (map py_repr xs) +:+ "]"
  | JObj kvs =>
      "{" +:+ join ", " (map (fun kv : string * json => let (k, x) := kv in
                                        repr_str k +:+ ": " +:+ py_repr x) kvs)
          +:+ "}"
  end.

(** [str(v)]: the text itself for a [str], [repr(v)] otherwise. *)
Definition py_str (v : json) : string :=
  match v with
  | JStr s => s
  | _ => py_repr v
  end.

(** [bool(v)], Python truthiness; a [float] is false when it is a zero. *)
Definition truthy (v : json) : bool :=
  match v with
  | JNull => false
  | JBool b => b
  | JInt z => negb (z =? 0)
  | JFloat f => match f with S754_zero _ => false | _ => true end
  | JStr s => negb (String.eqb s "")
  | JArr xs => match xs with [] => false | _ => true end
  | JObj kvs => match kvs with [] => false | _ => true end
  end.

(** [a or b]. *)
Definition py_or (a b : json) : json := if truthy a then a else b.

(** [v is None]. *)
Definition is_None (v : json) : bool :=
  match v with JNull => true | _ => false end.

(** [type(v).__name__]. *)
Definition type_name (v : json) : string :=
  match v with
  | JNull => "NoneType"
  | JBool _ => "bool"
  | JInt _ => "int"
  | JFloat _ => "float"
  | JStr _ => "str"
  | JArr _ => "list"
  | JObj _ => "dict"
  end.

Fixpoint assoc (key : string) (kvs : list (string * json)) : option json :=
  match kvs with
  | [] => None
  | (k, x) :: rest => if String.eqb k key then Some x else assoc key rest
  end.

(** [obj.get(key, default)]: only a [dict] has the method. *)
Definition py_get (obj : json) (key : string) (default : json) : outcome json :=
  match obj with
  | JObj kvs => Ok (match assoc key kvs with Some x => x | None => default end)
  | _ => Raise (AttributeError
                  ("'" +:+ type_name obj +:+ "' object has no attribute 'get'"))
  end.

(** ** [load_metrics] *)

(** The body of the inner loop once [json.loads] has returned [obj]:
    [None] stands for [continue], [Some o] for [records.append(o)]. *)
Definition load_record (study : string) (obj : json) : outcome (option observation) :=
  st ← py_get obj "study" JNull;
  match st with
  | JStr s =>
      if String.eqb s study then
        data ← py_get obj "data" (JObj []);
        f1 ← py_get data "family" JNull;
        f2 ← py_get data "true_family" JNull;
        let fam := py_or f1 f2 in
        r1 ← py_get data "model_role" JNull;
        r2 ← py_get data "role" JNull;
        let role := py_or r1 r2 in
        m1 ← py_get data "routing_mode" JNull;
        m2 ← py_get data "routing" JNull;
        let routing := py_or (py_or m1 m2) (JStr "none") in
        corr ← py_get data "correct" JNull;
        if is_None fam || is_None role || is_None corr then Ok None
        else Ok (Some {| o_key := {| family := lower (py_str fam);
                                     model_role := lower (py_str role);
                                     routing_mode := lower (py_str routing) |};
                         correct := truthy corr |})
      else Ok None
  | _ => Ok None
  end.


Section Loader.

(** [json.loads]. *)
Variable json_loads : string -> decoded.

(** [for line in f: ...], appending to [records]. *)
Fixpoint load_lines (study : string) (lines : list string)
         (records : list observation) : outcome (list observation) :=
  match lines with
  | [] => Ok records
  | line :: rest =>
      let line := strip line in
      if String.eqb line "" then load_lines study rest records
      else match json_loads line with
           | JSONDecodeError => load_lines study rest records
           | DecodeRaises e => Raise e
           | Decoded obj =>
               r ← load_record study obj;
               match r with
               | None => load_lines study rest records
               | Some o => load_lines study rest (records ++ [o])
               end
           end
  end.

(** [for path in paths: with path.open("r") as f: ...]. *)
Fixpoint load_files (study : string) (paths : list log_file)
         (records : list observation) : outcome (list observation) :=
  match paths with
  | [] => Ok records
  | f :: rest =>
      records' ← load_lines study (file_lines f) records;
      match file_error f with
      | Some e => Raise e
      | None => load_files study rest records'
      end
  end.

(** [load_metrics(logdir, pattern, study)]; [paths] is
    [sorted(logdir.glob(pattern))], each path with what reading it
    gives. *)
Definition load_metrics (logdir pattern study : string)
           (paths : list log_file) : outcome (list observation) :=
  match paths with
  | [] => Raise (SystemExit ("No metric files found in " +:+ logdir
                             +:+ " matching " +:+ pattern))
  | _ =>
      records ← load_files study paths [];
      match records with
      | [] => Raise (SystemExit ("No records found for study='" +:+ study
                                 +:+ "' in " +:+ logdir
                                 +:+ " (pattern: " +:+ pattern +:+ ")"))
      | _ => Ok records
      end
  end.

End Loader.

(** ** [summarize] *)

(** Python's order on [str], by code point. *)
Definition str_leb (a b : string) : bool := String.leb a b.

(** Lexicographic order on the columns a sort runs over. *)
Fixpoint lex_leb (a b : list string) : bool :=
  match a, b with
  | [], _ => true
  | _ :: _, [] => false
  | x :: a', y :: b' =>
      match String.compare x y with
      | Lt => true
      | Gt => false
      | Eq => lex_leb a' b'
      end
  end.

(** Order of the group keys in the result of [groupby], which sorts them. *)
Definition key_leb (a b : group_key) : bool :=
  lex_leb [family a; model_role a; routing_mode a]
          [family b; model_role b; routing_mode b].

(** Order used by [sort_values(["family", "model_role"])]. *)
Definition row_leb (a b : agg_row) : bool :=
  lex_leb [family (r_key a); model_role (r_key a)]
          [family (r_key b); model_role (r_key b)].

Section Sorting.
Context {A : Type} (leb : A -> A -> bool).

Fixpoint insert_sorted (x : A) (l : list A) : list A :=
  match l with
  | [] => [x]
  | y :: l' => if leb x y then x :: l else y :: insert_sorted x l'
  end.

(** A stable sort: among equal elements the earlier one stays first. *)
Definition stable_sort (l : list A) : list A := foldr insert_sorted [] l.
End Sorting.

(** The rows of [df] whose key is [k]. *)
Definition group_of (df : list observation) (k : group_key) : list observation :=
  List.filter (fun o => bool_decide (o_key o = k)) df.

(** How many rows of a group have [correct = True]. *)
Definition count_correct (g : list observation) : nat :=
  length (List.filter correct g).

(** The aggregation ["mean"] on the boolean column [correct]: the sum of
    the column as a float, divided by the number of rows. *)
Definition mean (g : list observation) : spec_float :=
  fdiv (float_of_Z (Z.of_nat (count_correct g))) (float_of_Z (Z.of_nat (length g))).

(** The keys [groupby] finds: each key that occurs, once, in ascending
    order. *)
Definition group_keys (df : list observation) : list group_key :=
  stable_sort key_leb (remove_dups (map o_key df)).

(** [df.groupby(["family", "model_role", "routing_mode"])
      .agg(n=("correct", "size"), accuracy=("correct", "mean")).reset_index()]:
    one row per key that occurs, keys in ascending order. *)
Definition groupby_agg (df : list observation) : list agg_row :=
  map (fun k => let g := group_of df k in
                {| r_key := k; n := length g; accuracy := mean g |})
      (group_keys df).

(** [mask = df["routing_mode"].str.lower() == routing_mode]. *)
Definition routing_mask (rm : string) (o : observation) : bool :=
  String.eqb (lower (routing_mode (o_key o))) rm.

(** The first part of [summarize]: the lines printed and the frame that is
    aggregated. [routing_mode] is [None] or a [str]; the frame always has
    the column ["routing_mode"]. *)
Definition select_routing (df : list observation) (routing_mode : option string)
  : list string * list observation :=
  match routing_mode with
  | None => ([], df)
  | Some rm =>
      if String.eqb rm "" then ([], df)
      else
        let rm := lower rm in
        if existsb (routing_mask rm) df
        then ([], List.filter (routing_mask rm) df)
        else (["[!] No entries found for routing_mode=" +:+ rm
               +:+ "; using all routing modes."], df)
  end.

(** [summarize(df, routing_mode)]: the lines printed and the summary. *)
Definition summarize (df : list observation) (routing_mode : option string)
  : list string * list agg_row :=
  let (printed, df) := select_routing df routing_mode in
  (printed, stable_sort row_leb (groupby_agg df)).

(** ** The renderers *)

(** [summary[summary["family"] == fam]]. *)
Definition with_family (fam : string) (summary : list agg_row) : list agg_row :=
  List.filter (fun r => String.eqb (family (r_key r)) fam) summary.

(** [sub[sub["model_role"] == role]]. *)
Definition with_role (role : string) (sub : list agg_row) : list agg_row :=
  List.filter (fun r => String.eqb (model_role (r_key r)) role) sub.

(** [float(rows["accuracy"].iloc[0])] on a frame that is not empty. *)
Definition first_accuracy (rows : list agg_row) : spec_float :=
  match rows with
  | r :: _ => accuracy r
  | [] => nan
  end.

Definition family_to_macro : list (string * string) :=
  [("psk", "PSK"); ("qam", "QAM"); ("analog", "Analog")].

(** The numbers [write_callouts_tex] computes for one family:
    [(gen_acc, spec_acc, gain)], or [None] where the loop [continue]s. *)
Definition callout_values (summary : list agg_row) (fam : string)
  : option (spec_float * spec_float * spec_float) :=
  let sub := with_family fam summary in
  match sub with
  | [] => None
  | _ =>
      let gen := with_role "generalist" sub in
      let spec := with_role "specialist" sub in
      match gen, spec with
      | [], _ | _, [] => None
      | _, _ =>
          let gen_acc := first_accuracy gen in
          let spec_acc := first_accuracy spec in
          let gain := fmul (fsub spec_acc gen_acc) f100 in
          Some (gen_acc, spec_acc, gain)
      end
  end.

(** The three [lines.append] of one family. Each argument is the adjacent
    literals joined, then [.format] applied to the whole. *)
Definition callout_family_lines (macro_prefix : string)
           (v : spec_float * spec_float * spec_float) : outcome (list string) :=
  let '(gen_acc, spec_acc, gain) := v in
  l1 ← str_format ("\newcommand{\" +:+ macro_prefix +:+ "GeneralistAcc}" +:+ "{{{:.1f}}}")
                  (fmul gen_acc f100);
  l2 ← str_format ("\newcommand{\" +:+ macro_prefix +:+ "SpecialistAcc}" +:+ "{{{:.1f}}}")
                  (fmul spec_acc f100);
  l3 ← str_format ("\newcommand{\" +:+ macro_prefix +:+ "Gain}" +:+ "{{{:.1f}}}")
                  gain;
  Ok [l1; l2; l3].

(** The loop over [family_to_macro.items()], appending to [lines]. *)
Fixpoint callout_loop (summary : list agg_row) (fams : list (string * string))
         (lines : list string) : outcome (list string) :=
  match fams with
  | [] => Ok lines
  | (fam, macro_prefix) :: rest =>
      match callout_values summary fam with
      | None => callout_loop summary rest lines
      | Some v =>
          ls ← callout_family_lines macro_prefix v;
          callout_loop summary rest (lines ++ ls)
      end
  end.

Definition callouts_placeholder : string :=
  "% No specialization callouts available; generated empty file.".

Definition newline : string := String "010"%char "".

(** The text [write_callouts_tex] hands to [write_text]. *)
Definition callouts_text (summary : list agg_row) : outcome string :=
  lines ← callout_loop summary family_to_macro [];
  let lines := match lines with [] => [callouts_placeholder] | _ => lines end in
  Ok (join newline lines +:+ newline).

(** [datadir / name]. *)
Definition path_join (dir name : string) : string := dir +:+ "/" +:+ name.

(** [write_callouts_tex(summary, datadir)] on the file store [fs]. *)
Definition write_callouts_tex (summary : list agg_row) (datadir : string)
           (fs : gmap string artifact) : gmap string artifact * outcome unit :=
  match callouts_text summary with
  | Ok text => (<[path_join datadir "specialization_callouts.tex" := TexFile text]> fs, Ok tt)
  | Raise e => (fs, Raise e)
  end.

(** One line of the table body. *)
Definition table_row (row : agg_row) : string :=
  let acc := fmul (accuracy row) f100 in
  "    " +:+ family (r_key row) +:+ " & " +:+ model_role (r_key row) +:+ " & "
         +:+ routing_mode (r_key row) +:+ " & " +:+ format_1f acc +:+ " & "
         +:+ str_of_nat (n row) +:+ " \\".

Definition table_lines (summary : list agg_row) : list string :=
  ["\begin{table}[t]";
   "  \centering";
   "  \caption{Generalist vs specialist accuracy per modulation family.}";
   "  \label{tab:specialization-results}";
   "  \begin{tabular}{llllr}";
   "    \toprule";
   "    Family & Role & Routing & Acc (\%) & $N$ \\";
   "    \midrule"]
  ++ map table_row summary
  ++ ["    \bottomrule"; "  \end{tabular}"; "\end{table}"; ""].

(** [write_table_tex(summary, datadir)]. *)
Definition write_table_tex (summary : list agg_row) (datadir : string)
           (fs : gmap string artifact) : gmap string artifact :=
  <[path_join datadir "specialization_table.tex" := TexFile (join newline (table_lines summary))]> fs.

(** [sorted(summary["family"].unique())]. *)
Definition families_of (summary : list agg_row) : list string :=
  stable_sort str_leb (remove_dups (map (fun r => family (r_key r)) summary)).

(** One cell of [acc_matrix]. *)
Definition acc_cell (summary : list agg_row) (fam role : string) : spec_float :=
  match with_role role (with_family fam summary) with
  | [] => nan
  | sub => fmul (first_accuracy sub) f100
  end.

(** [plot_specialization_gain(summary, outdir)]. *)

(** The figure [plot_specialization_gain] builds: a tick per family, and
    for each the two bars of [acc_matrix]. *)
Definition gain_figure (summary : list agg_row) : figure :=
  let families := families_of summary in
  let acc_matrix :=
    map (fun fam => (acc_cell summary fam "generalist",
                     acc_cell summary fam "specialist")) families in
  GainFigure families acc_matrix.

(** [plot_specialization_gain(summary, outdir)]. *)
Definition plot_specialization_gain (summary : list agg_row) (outdir : string)
           (fs : gmap string artifact) : gmap string artifact * outcome unit :=
  let fig := gain_figure summary in
  match draw fig with
  | Some e => (fs, Raise e)
  | None => (<[path_join outdir "specialization_gain_vs_generalist.pdf"
               := FigureFile fig]> fs, Ok tt)
  end.

(** The value appended to [deltas] for one family. *)
Definition delta_of (summary : list agg_row) (fam : string) : spec_float :=
  let sub := with_family fam summary in
  let gen := with_role "generalist" sub in
  let spec := with_role "specialist" sub in
  match gen, spec with
  | [], _ | _, [] => nan
  | _, _ => fmul (fsub (first_accuracy spec) (first_accuracy gen)) f100
  end.

Definition family_deltas (summary : list agg_row) : list spec_float :=
  map (delta_of summary) (families_of summary).


(** The figure [plot_family_delta] builds. *)
Definition delta_figure (summary : list agg_row) : figure :=
  DeltaFigure (families_of summary) (family_deltas summary).

(** [plot_family_delta(summary, outdir)]. *)
Definition plot_family_delta (summary : list agg_row) (outdir : string)
           (fs : gmap string artifact) : gmap string artifact * outcome unit :=
  let fig := delta_figure summary in
  match draw fig with
  | Some e => (fs, Raise e)
  | None => (<[path_join outdir "family_confusion_deltas.pdf" := FigureFile fig]> fs,
             Ok tt)
  end.

(** ** [main] *)

Section Main.
Variable json_loads : string -> decoded.

(** [main()]: [paths] is what [logdir.glob(pattern)] finds, sorted; the
    result is the file store left behind and how the run ended. What the
    run prints is left out. *)
Definition main (args : arguments) (paths : list log_file)
           (fs : gmap string artifact) : gmap string artifact * outcome unit :=
  match load_metrics json_loads (logdir args) (pattern args) (study args) paths with
  | Raise e => (fs, Raise e)
  | Ok df =>
      let summary := snd (summarize df (Some (arg_routing_mode args))) in
      match plot_specialization_gain summary (outdir args) fs with
      | (fs, Raise e) => (fs, Raise e)
      | (fs, Ok _) =>
          match plot_family_delta summary (outdir args) fs with
          | (fs, Raise e) => (fs, Raise e)
          | (fs, Ok _) =>
              match write_callouts_tex summary (datadir args) fs with
              | (fs, Raise e) => (fs, Raise e)
              | (fs, Ok _) => (write_table_tex summary (datadir args) fs, Ok tt)
              end
          end
      end
  end.
End Main.

(** ** Vocabulary of the statements about the extractor *)


(** A line that the loop passes over: with it in front or not, the rest
    of the file is read the same way. *)
Definition passed_over (json_loads : string -> decoded) (study line : string) : Prop :=
  forall rest records,
    load_lines json_loads study (line :: rest) records
    = load_lines json_loads study rest records.

(** [d.get(key)], with [None] for a key the dict does not hold. *)
Definition field (d : list (string * json)) (key : string) : json :=
  match assoc key d with Some x => x | None => JNull end.

(** The dict the extractor reads the fields from: [obj.get("data", {})]
    when that is a dict. *)
Definition record_data (top : list (string * json)) : option (list (string * json)) :=
  match assoc "data" top with
  | None => Some []
  | Some (JObj d) => Some d
  | Some _ => None
  end.

(** The value kept for a field with two names: the first when it is
    truthy, the second otherwise. *)
Definition chosen (d : list (string * json)) (key1 key2 : string) : json :=
  if truthy (field d key1) then field d key1 else field d key2.

(** The routing value kept: the first truthy of the two names, else the
    text ["none"]. *)
Definition chosen_routing (d : list (string * json)) : json :=
  if truthy (field d "routing_mode") then field d "routing_mode"
  else if truthy (field d "routing") then field d "routing"
  else JStr "none".

(** The record is dropped: the chosen family, the chosen role or
    [correct] is [None]. *)
Definition incomplete (d : list (string * json)) : bool :=
  is_None (chosen d "family" "true_family")
  || is_None (chosen d "model_role" "role")
  || is_None (field d "correct").

(** The normalisation as the specification words it, for comparison with
    [load_record]: a field comes from its first name when the record has
    it, from the second name when the first is absent; routing defaults to
    ["none"] when neither name is present; the record is dropped exactly
    when family, role or [correct] is missing. *)
Definition spec_chosen (d : list (string * json)) (key1 key2 : string) : json :=
  if is_None (field d key1) then field d key2 else field d key1.

Definition spec_normalize (d : list (string * json)) : option observation :=
  let fam := spec_chosen d "family" "true_family" in
  let role := spec_chosen d "model_role" "role" in
  let routing :=
    if is_None (spec_chosen d "routing_mode" "routing") then JStr "none"
    else spec_chosen d "routing_mode" "routing" in
  if is_None fam || is_None role || is_None (field d "correct") then None
  else Some {| o_key := {| family := lower (py_str fam);
                           model_role := lower (py_str role);
                           routing_mode := lower (py_str routing) |};
               correct := truthy (field d "correct") |}.

(** ** Vocabulary of the statements about the renderers *)

(** The first row of the summary with the given family and role. *)
Definition first_row (fam role : string) (summary : list agg_row) : option agg_row :=
  List.find (fun r => String.eqb (family (r_key r)) fam
                      && String.eqb (model_role (r_key r)) role) summary.

(** ** Vocabulary of further statements *)

(** An observation as the extractor leaves it: family, role and routing
    mode are fixed by [lower], and the routing mode is not empty. *)
Definition normalized (o : observation) : Prop :=
  lower (family (o_key o)) = family (o_key o)
  /\ lower (model_role (o_key o)) = model_role (o_key o)
  /\ lower (routing_mode (o_key o)) = routing_mode (o_key o)
  /\ routing_mode (o_key o) <> "".

(** A decoded line on which [load_record] cannot call [get]: a value that
    is not a dict, or a record of the study whose [data] is not a dict. *)
Definition malformed (study : string) (obj : json) : Prop :=
  match obj with
  | JObj top => assoc "study" top = Some (JStr study) /\ record_data top = None
  | _ => True
  end.

(** The family has a row of each of the two roles. *)
Definition qualifies (summary : list agg_row) (fam : string) : Prop :=
  (exists g, g ∈ summary /\ family (r_key g) = fam /\ model_role (r_key g) = "generalist")
  /\ (exists s, s ∈ summary /\ family (r_key s) = fam /\ model_role (r_key s) = "specialist").

(** The last character of a text, [None] for the empty text. *)
Fixpoint last_ascii (s : string) : option ascii :=
  match s with
  | EmptyString => None
  | String c EmptyString => Some c
  | String _ s' => last_ascii s'
  end.

End Program.

(** ** Examples *)

(** A library for the examples, right for text in ASCII: the string
    functions are those of the first part, and every figure is drawn. Its
    [float_repr] is a fixed text, which is not what Python prints: no
    example shows a float through it. *)
Definition example_lib : Library.
Proof.
  refine {| lower := ascii_lower; strip := ascii_strip; repr_str := ascii_repr_str;
            float_repr := fun _ => "<float>"; draw := fun _ => None |}.
  - intros s. induction s as [|c s IH]; cbn [ascii_lower]; [reflexivity|].
    rewrite IH. f_equal. destruct c as [[] [] [] [] [] [] [] []]; reflexivity.
  - intros s. destruct s; [reflexivity|discriminate].
  - reflexivity.
  - discriminate.
Defined.

(** A record of study ["s"] with the three required fields. *)
Definition example_record (fam role : string) (ok : bool) : json :=
  JObj [("study", JStr "s");
        ("data", JObj [("family", JStr fam); ("model_role", JStr role);
                       ("correct", JBool ok)])].

(** A decoder for the examples: it knows four lines and raises
    [json.JSONDecodeError] on every other text. *)
Definition example_loads (line : string) : decoded :=
  if String.eqb line "G+" then Decoded (example_record "psk" "generalist" true)
  else if String.eqb line "G-" then Decoded (example_record "psk" "generalist" false)
  else if String.eqb line "S+" then Decoded (example_record "psk" "specialist" true)
  else if String.eqb line "A+" then Decoded (example_record "analog" "generalist" true)
  else JSONDecodeError.

Definition example_args : arguments :=
  {| logdir := "../logs"; pattern := "metrics_*.jsonl"; outdir := "figs";
     datadir := "data"; study := "s"; arg_routing_mode := "oracle" |}.

(** [{"family": 0, "model_role": "generalist", "correct": true}]. *)
Definition data_family_zero : list (string * json) :=
  [("family", JInt 0); ("model_role", JStr "generalist"); ("correct", JBool true)].

(** A summary in which ["psk"] has both roles and ["analog"] only the
    generalist: accuracies 0.5, 1.0 and 1.0. *)
Definition example_summary : list agg_row :=
  [ {| r_key := {| family := "analog"; model_role := "generalist"; routing_mode := "oracle" |};
       n := 1; accuracy := f1 |};
    {| r_key := {| family := "psk"; model_role := "generalist"; routing_mode := "oracle" |};
       n := 2; accuracy := S754_finite false 4503599627370496 (-53) |};
    {| r_key := {| family := "psk"; model_role := "specialist"; routing_mode := "oracle" |};
       n := 1; accuracy := f1 |} ].

(** The two observations of one family and role, one correct and one not,
    and the row they aggregate to: [n = 2], [accuracy = 0.5]. *)
Definition example_observations : list observation :=
  [ {| o_key := {| family := "psk"; model_role := "generalist"; routing_mode := "none" |};
       correct := true |};
    {| o_key := {| family := "psk"; model_role := "generalist"; routing_mode := "none" |};
       correct := false |} ].

Definition example_row : agg_row :=
  {| r_key := {| family := "psk"; model_role := "generalist"; routing_mode := "none" |};
     n := 2; accuracy := S754_finite false 4503599627370496 (-53) |}.

(** [n] opening brackets. *)
Fixpoint brackets (n : nat) : string :=
  match n with
  | O => ""
  | S n' => String "["%char (brackets n')
  end.

(** A decoder for further examples: besides the lines of [example_loads]
    it knows a record of another study whose [data] is [null], a record
    of study ["s"] without a role, and the empty list; and on the line of
    1200 opening brackets, which is not JSON, it raises [RecursionError],
    as [json.loads] does. *)
Definition example_loads_more (line : string) : decoded :=
  if String.eqb line "O+" then Decoded (JObj [("study", JStr "other"); ("data", JNull)])
  else if String.eqb line "I+" then
    Decoded (JObj [("study", JStr "s");
                   ("data", JObj [("family", JStr "psk"); ("correct", JBool true)])])
  else if String.eqb line "[]" then Decoded (JArr [])
  else if String.eqb line (brackets 1200) then
    DecodeRaises (RecursionError "maximum recursion depth exceeded while decoding a JSON array from a unicode string")
  else example_loads line.

(** A log file that is read to its end. *)
Definition text_file (lines : list string) : log_file :=
  {| file_lines := lines; file_error := None |}.

(** A row with a role that is neither of the two the renderers look for. *)
Definition example_expert_row : agg_row :=
  {| r_key := {| family := "psk"; model_role := "expert"; routing_mode := "oracle" |};
     n := 3; accuracy := f0 |}.

(** * Properties *)

Section Properties.
Context `{lib : Library}.

(** ** The extractor *)

Section LoaderFacts.
Variable json_loads : string -> decoded.


Lemma load_lines_insert study (before_ : list string) line after_ records :
  passed_over json_loads study line ->
  load_lines json_loads study (before_ ++ line :: after_) records
  = load_lines json_loads study (before_ ++ after_) records.
Proof.
  intros Hskip. revert records.
  induction before_ as [|l before_ IH]; intros records.
  - apply Hskip.
  - cbn [app load_lines].
    destruct (String.eqb (strip l) ""); [apply IH|].
    destruct (json_loads (strip l)) as [obj| |e]; [|apply IH|reflexivity].
    destruct (load_record study obj) as [[o|]|e]; cbn [mbind outcome_bind]; auto.
Qed.

Lemma load_files_insert study files1 (before_ : list string) line after_ err files2
      records :
  passed_over json_loads study line ->
  load_files json_loads study
             (files1 ++ LogFile (before_ ++ line :: after_) err :: files2) records
  = load_files json_loads study
               (files1 ++ LogFile (before_ ++ after_) err :: files2) records.
Proof.
  intros Hskip. revert records.
  induction files1 as [|f files1 IH]; intros records.
  - cbn [app load_files file_lines file_error].
    rewrite load_lines_insert by exact Hskip. reflexivity.
  - cbn [app load_files].
    destruct (load_lines json_loads study (file_lines f) records) as [records'|e];
      cbn [mbind outcome_bind]; [|reflexivity].
    destruct (file_error f); [reflexivity|apply IH].
Qed.

Lemma load_metrics_insert logdir pattern study files1 (before_ : list string) line
      after_ err files2 :
  passed_over json_loads study line ->
  load_metrics json_loads logdir pattern study
               (files1 ++ LogFile (before_ ++ line :: after_) err :: files2)
  = load_metrics json_loads logdir pattern study
                 (files1 ++ LogFile (before_ ++ after_) err :: files2).
Proof.
  intros Hskip. unfold load_metrics.
  rewrite load_files_insert by exact Hskip.
  destruct files1; reflexivity.
Qed.

End LoaderFacts.

Lemma load_record_dict study top d :
  assoc "study" top = Some (JStr study) ->
  record_data top = Some d ->
  load_record study (JObj top)
  = Ok (if incomplete d then None
        else Some {| o_key :=
                       {| family := lower (py_str (chosen d "family" "true_family"));
                          model_role := lower (py_str (chosen d "model_role" "role"));
                          routing_mode := lower (py_str (chosen_routing d)) |};
                     correct := truthy (field d "correct") |}).
Proof.
  intros Hstudy Hdata. unfold load_record.
  cbn [py_get mbind outcome_bind]. rewrite Hstudy, String.eqb_refl.
  assert (Hd : match assoc "data" top with Some x => x | None => JObj [] end = JObj d).
  { unfold record_data in Hdata.
    destruct (assoc "data" top) as [[]|]; congruence. }
  rewrite Hd. cbn [py_get mbind outcome_bind].
  unfold incomplete, chosen_routing, chosen, field, py_or.
  generalize (match assoc "family" d with Some x => x | None => JNull end)
             (match assoc "true_family" d with Some x => x | None => JNull end)
             (match assoc "model_role" d with Some x => x | None => JNull end)
             (match assoc "role" d with Some x => x | None => JNull end)
             (match assoc "routing_mode" d with Some x => x | None => JNull end)
             (match assoc "routing" d with Some x => x | None => JNull end)
             (match assoc "correct" d with Some x => x | None => JNull end).
  intros fam1 fam2 role1 role2 mode1 mode2 corr.
  destruct (truthy mode1) eqn:Hm1; rewrite ?Hm1;
    [|destruct (truthy mode2) eqn:Hm2; rewrite ?Hm2];
    destruct (is_None _ || is_None _ || is_None corr); reflexivity.
Qed.

(** A line that decodes to anything but a dict stops the run: such a value
    has no method [get]. *)
Lemma load_record_not_dict study v :
  (forall kvs, v <> JObj kvs) ->
  load_record study v
  = Raise (AttributeError ("'" +:+ type_name v +:+ "' object has no attribute 'get'")).
Proof.
  intros Hv. destruct v as [| | | | | |kvs]; try reflexivity.
  exfalso. exact (Hv kvs eq_refl).
Qed.


(** C4, as amended: for a record of the requested study whose [data] is a
    dict (or is absent, which reads as the empty dict), the extractor takes
    family from [data.family] when that value is truthy and from
    [data.true_family] otherwise, role likewise from [data.model_role] then
    [data.role], routing from the first truthy of [data.routing_mode] and
    [data.routing] and else ["none"]; it drops the record exactly when the
    chosen family, the chosen role or [data.correct] is [None]; what it
    keeps is the lowercased [str] of the chosen values, which lowercasing
    leaves unchanged, and the truthiness of [data.correct]. *)
Theorem C4_load_record_fields study top d :
  assoc "study" top = Some (JStr study) ->
  record_data top = Some d ->
  (incomplete d = true -> load_record study (JObj top) = Ok None)
  /\ (incomplete d = false ->
      exists o,
        load_record study (JObj top) = Ok (Some o)
        /\ family (o_key o) = lower (py_str (chosen d "family" "true_family"))
        /\ model_role (o_key o) = lower (py_str (chosen d "model_role" "role"))
        /\ routing_mode (o_key o) = lower (py_str (chosen_routing d))
        /\ correct o = truthy (field d "correct")
        /\ lower (family (o_key o)) = family (o_key o)
        /\ lower (model_role (o_key o)) = model_role (o_key o)
        /\ lower (routing_mode (o_key o)) = routing_mode (o_key o)).
Proof.
  intros Hstudy Hdata.
  rewrite (load_record_dict study top d Hstudy Hdata).
  split; intros Hinc; rewrite Hinc; [reflexivity|].
  eexists. split; [reflexivity|]. cbn [o_key family model_role routing_mode correct].
  rewrite !lower_idem. repeat split; reflexivity.
Qed.

(** ** The aggregator *)

Section SortingFacts.
Context {A : Type} (leb : A -> A -> bool).

Lemma insert_sorted_perm x l : insert_sorted leb x l ≡ₚ x :: l.
Proof.
  induction l as [|y l IH]; simpl; [reflexivity|].
  destruct (leb x y); [reflexivity|].
  rewrite IH. apply Permutation_swap.
Qed.

Lemma stable_sort_perm l : stable_sort leb l ≡ₚ l.
Proof.
  induction l as [|x l IH]; simpl; [reflexivity|].
  rewrite insert_sorted_perm, IH. reflexivity.
Qed.

Lemma stable_sort_nil l : stable_sort leb l = [] -> l = [].
Proof.
  intros H. apply Permutation_nil_r. rewrite <- H.
  symmetry. apply stable_sort_perm.
Qed.
End SortingFacts.

Lemma remove_dups_nil {A} `{EqDecision A} (l : list A) : remove_dups l = [] -> l = [].
Proof.
  destruct l as [|x l]; [reflexivity|]. intros H.
  assert (Hin : x ∈ remove_dups (x :: l)) by (apply elem_of_remove_dups; left).
  rewrite H in Hin. inversion Hin.
Qed.

Lemma groupby_agg_keys df : map r_key (groupby_agg df) = group_keys df.
Proof.
  unfold groupby_agg, group_keys. rewrite map_map. simpl. apply map_id.
Qed.

Lemma groupby_agg_sizes df :
  map n (groupby_agg df) = map (fun k => length (group_of df k)) (group_keys df).
Proof. unfold groupby_agg, group_keys. rewrite map_map. reflexivity. Qed.

Lemma group_keys_perm df : group_keys df ≡ₚ remove_dups (map o_key df).
Proof. apply stable_sort_perm. Qed.

Lemma group_keys_NoDup df : NoDup (group_keys df).
Proof. rewrite group_keys_perm. apply NoDup_remove_dups. Qed.

Lemma elem_of_group_keys df k :
  k ∈ group_keys df <-> exists o, o ∈ df /\ o_key o = k.
Proof.
  rewrite group_keys_perm, elem_of_remove_dups, list_elem_of_fmap.
  split; [intros (o & H1 & H2)|intros (o & H1 & H2)]; exists o; auto.
Qed.

Lemma groupby_agg_nil df : groupby_agg df = [] -> df = [].
Proof.
  unfold groupby_agg. intros H. apply map_eq_nil in H.
  apply stable_sort_nil, remove_dups_nil in H.
  destruct df; [reflexivity|discriminate].
Qed.

(** Each observation lies in the group of exactly one key of a
    duplicate-free list that holds its key. *)
Lemma key_hits_once (k : group_key) (ks : list group_key) :
  NoDup ks -> k ∈ ks ->
  sum_list (map (fun k' => if bool_decide (k = k') then 1%nat else 0%nat) ks) = 1%nat.
Proof.
  induction 1 as [|k0 ks Hnotin Hnd IH]; intros Hin; [inversion Hin|].
  simpl. destruct (bool_decide_reflect (k = k0)) as [->|Hne].
  - assert (Hz : sum_list (map (fun k' => if bool_decide (k0 = k') then 1%nat else 0%nat) ks)
                 = 0%nat).
    { clear -Hnotin. induction ks as [|k1 ks IH]; [reflexivity|]. simpl.
      destruct (bool_decide_reflect (k0 = k1)) as [->|_].
      - exfalso. apply Hnotin. left.
      - apply IH. intros H. apply Hnotin. right. exact H. }
    rewrite Hz. reflexivity.
  - apply elem_of_cons in Hin as [->|Hin]; [congruence|].
    rewrite (IH Hin). reflexivity.
Qed.

Lemma group_sizes_sum (ks : list group_key) (df : list observation) :
  NoDup ks -> (forall o, o ∈ df -> o_key o ∈ ks) ->
  sum_list (map (fun k => length (group_of df k)) ks) = length df.
Proof.
  intros Hnd. induction df as [|o df IH]; intros Hall.
  - simpl. clear. induction ks; simpl; auto.
  - assert (Hsplit : forall l : list group_key,
      sum_list (map (fun k => length (group_of (o :: df) k)) l)
      = (sum_list (map (fun k' => if bool_decide (o_key o = k') then 1%nat else 0%nat) l)
         + sum_list (map (fun k => length (group_of df k)) l))%nat).
    { induction l as [|k l IHl]; [reflexivity|].
      cbn [map sum_list]. rewrite IHl. unfold group_of at 1. cbn [List.filter].
      fold (group_of df k).
      destruct (bool_decide (o_key o = k)); simpl; lia. }
    rewrite Hsplit, key_hits_once, IH; auto.
    + intros o' Ho'. apply Hall. right. exact Ho'.
    + apply Hall. left.
Qed.

Lemma sum_list_perm (l1 l2 : list nat) : l1 ≡ₚ l2 -> sum_list l1 = sum_list l2.
Proof. induction 1; simpl; lia. Qed.

Lemma existsb_routing_mask rm df :
  existsb (routing_mask rm) df = true
  <-> exists o, o ∈ df /\ lower (routing_mode (o_key o)) = rm.
Proof.
  rewrite existsb_exists. unfold routing_mask.
  split; intros (o & Hin & Ho); exists o.
  - split; [apply list_elem_of_In, Hin|apply String.eqb_eq, Ho].
  - split; [apply list_elem_of_In, Hin|apply String.eqb_eq, Ho].
Qed.

(** C2: whatever the observations and the routing-mode filter, the counts
    [n] of the rows of the summary add up to the number of observations
    that survive the filter, no two rows have the same
    (family, model_role, routing_mode), and the keys of the rows are
    exactly the keys of the surviving observations. *)
Theorem C2_rows_partition_observations df routing :
  let surviving := snd (select_routing df routing) in
  let rows := snd (summarize df routing) in
  sum_list (map n rows) = length surviving
  /\ NoDup (map r_key rows)
  /\ (forall k, k ∈ map r_key rows <-> exists o, o ∈ surviving /\ o_key o = k).
Proof.
  unfold summarize. destruct (select_routing df routing) as [printed surv].
  cbn [snd].
  pose proof (stable_sort_perm row_leb (groupby_agg surv)) as Hperm.
  split; [|split].
  - rewrite (sum_list_perm _ _ (Permutation_map n Hperm)).
    rewrite groupby_agg_sizes. apply group_sizes_sum.
    + apply group_keys_NoDup.
    + intros o Ho. apply elem_of_group_keys. eauto.
  - rewrite (Permutation_map r_key Hperm), groupby_agg_keys.
    apply group_keys_NoDup.
  - intros k. rewrite (Permutation_map r_key Hperm), groupby_agg_keys.
    apply elem_of_group_keys.
Qed.

Lemma select_routing_match df rm :
  rm <> "" ->
  (exists o, o ∈ df /\ lower (routing_mode (o_key o)) = lower rm) ->
  select_routing df (Some rm) = ([], List.filter (routing_mask (lower rm)) df).
Proof.
  intros Hrm Hex. unfold select_routing.
  destruct (String.eqb_spec rm ""); [contradiction|].
  apply existsb_routing_mask in Hex. rewrite Hex. reflexivity.
Qed.

Lemma select_routing_no_match df rm :
  rm <> "" ->
  (forall o, o ∈ df -> lower (routing_mode (o_key o)) <> lower rm) ->
  select_routing df (Some rm)
  = (["[!] No entries found for routing_mode=" +:+ lower rm
      +:+ "; using all routing modes."], df).
Proof.
  intros Hrm Hnone. unfold select_routing.
  destruct (String.eqb_spec rm ""); [contradiction|].
  destruct (existsb (routing_mask (lower rm)) df) eqn:Hex; [|reflexivity].
  apply existsb_routing_mask in Hex. destruct Hex as (o & Hin & Ho).
  exfalso. exact (Hnone o Hin Ho).
Qed.

Lemma summarize_nil df routing : snd (summarize df routing) = [] ->
  snd (select_routing df routing) = [].
Proof.
  unfold summarize. destruct (select_routing df routing) as [printed surv].
  cbn [snd]. intros H. apply stable_sort_nil, groupby_agg_nil in H. exact H.
Qed.

(** C5: for observations that are not empty and a filter that is not the
    empty string: when some observation has that routing mode, compared
    without regard to case, [summarize] prints nothing and aggregates
    exactly the observations that match; when none has, it prints the
    warning and aggregates all the observations, and the summary is not
    empty. *)
Theorem C5_routing_filter_soft_fail df rm :
  df <> [] -> rm <> "" ->
  ((exists o, o ∈ df /\ lower (routing_mode (o_key o)) = lower rm) ->
   snd (select_routing df (Some rm))
   = List.filter (fun o => String.eqb (lower (routing_mode (o_key o))) (lower rm)) df
   /\ summarize df (Some rm)
      = ([], snd (summarize (List.filter (routing_mask (lower rm)) df) None)))
  /\ ((forall o, o ∈ df -> lower (routing_mode (o_key o)) <> lower rm) ->
      summarize df (Some rm)
      = (["[!] No entries found for routing_mode=" +:+ lower rm
          +:+ "; using all routing modes."],
         snd (summarize df None))
      /\ snd (summarize df (Some rm)) <> []).
Proof.
  intros Hdf Hrm. split.
  - intros Hex. unfold summarize.
    rewrite (select_routing_match df rm Hrm Hex). split; reflexivity.
  - intros Hnone.
    assert (Hsum : summarize df (Some rm)
                   = (["[!] No entries found for routing_mode=" +:+ lower rm
                       +:+ "; using all routing modes."],
                      snd (summarize df None))).
    { unfold summarize. rewrite (select_routing_no_match df rm Hrm Hnone).
      reflexivity. }
    split; [exact Hsum|].
    intros Hnil. apply summarize_nil in Hnil.
    rewrite (select_routing_no_match df rm Hrm Hnone) in Hnil.
    exact (Hdf Hnil).
Qed.

(** ** The renderers *)

Lemma first_row_filter fam role summary :
  first_row fam role summary
  = match with_role role (with_family fam summary) with
    | [] => None
    | r :: _ => Some r
    end.
Proof.
  unfold first_row, with_role, with_family.
  induction summary as [|r summary IH]; [reflexivity|]. cbn [List.find List.filter].
  destruct (String.eqb (family (r_key r)) fam); cbn [andb List.filter]; [|exact IH].
  destruct (String.eqb (model_role (r_key r)) role); [reflexivity|exact IH].
Qed.

Lemma first_row_accuracy fam role summary r :
  first_row fam role summary = Some r ->
  with_role role (with_family fam summary) <> []
  /\ first_accuracy (with_role role (with_family fam summary)) = accuracy r.
Proof.
  rewrite first_row_filter.
  destruct (with_role role (with_family fam summary)) as [|r' rest]; [discriminate|].
  intros [= ->]. split; [discriminate|reflexivity].
Qed.

(** C8: when the summary has a row for (family, "generalist") and a row
    for (family, "specialist"), the numbers the callout emitter computes
    and the entry of the gain chart are those of the first such rows of the
    summary: no other row of the family, whatever its routing mode, has a
    part in them. *)
Theorem C8_first_row_only summary fam g s :
  first_row fam "generalist" summary = Some g ->
  first_row fam "specialist" summary = Some s ->
  callout_values summary fam
  = Some (accuracy g, accuracy s, fmul (fsub (accuracy s) (accuracy g)) f100)
  /\ delta_of summary fam = fmul (fsub (accuracy s) (accuracy g)) f100
  /\ acc_cell summary fam "generalist" = fmul (accuracy g) f100
  /\ acc_cell summary fam "specialist" = fmul (accuracy s) f100.
Proof.
  intros Hg Hs.
  destruct (first_row_accuracy _ _ _ _ Hg) as [Hgne Hgacc].
  destruct (first_row_accuracy _ _ _ _ Hs) as [Hsne Hsacc].
  unfold callout_values, delta_of, acc_cell. rewrite Hgacc, Hsacc.
  destruct (with_family fam summary) as [|r0 sub] eqn:Hsub.
  { exfalso. apply Hgne. reflexivity. }
  destruct (with_role "generalist" (r0 :: sub)) as [|g0 gs]; [congruence|].
  destruct (with_role "specialist" (r0 :: sub)) as [|s0 ss]; [congruence|].
  cbn [first_accuracy] in *. rewrite ?Hgacc, ?Hsacc.
  repeat split; reflexivity.
Qed.

(** The first [lines.append] of a family raises: the text handed to
    [.format] holds the replacement field [{\<prefix>GeneralistAcc}], a name
    no keyword argument has. *)
Lemma callout_family_lines_raises fam macro_prefix v :
  (fam, macro_prefix) ∈ family_to_macro ->
  callout_family_lines macro_prefix v
  = Raise (KeyError ("\" +:+ macro_prefix +:+ "GeneralistAcc")).
Proof.
  intros Hin. destruct v as [[gen_acc spec_acc] gain].
  unfold family_to_macro in Hin.
  repeat (apply elem_of_cons in Hin as [[= -> ->]|Hin]; [reflexivity|]).
  inversion Hin.
Qed.

Lemma callout_loop_none summary fams lines :
  (forall fam p, (fam, p) ∈ fams -> callout_values summary fam = None) ->
  callout_loop summary fams lines = Ok lines.
Proof.
  induction fams as [|[fam p] fams IH]; intros Hnone; [reflexivity|].
  cbn [callout_loop]. rewrite (Hnone fam p) by left.
  apply IH. intros fam' p' Hin. apply (Hnone fam' p'). right. exact Hin.
Qed.

Lemma callout_loop_raises summary fams lines :
  (forall fam p, (fam, p) ∈ fams -> (fam, p) ∈ family_to_macro) ->
  (exists fam p, (fam, p) ∈ fams /\ callout_values summary fam <> None) ->
  exists key, callout_loop summary fams lines = Raise (KeyError key).
Proof.
  induction fams as [|[fam p] fams IH]; intros Hsub (fam' & p' & Hin & Hsome).
  - inversion Hin.
  - cbn [callout_loop].
    destruct (callout_values summary fam) as [v|] eqn:Hv.
    + rewrite (callout_family_lines_raises fam p v) by (apply Hsub; left).
      eexists. reflexivity.
    + apply IH.
      * intros f q Hfq. apply Hsub. right. exact Hfq.
      * apply elem_of_cons in Hin as [[= -> ->]|Hin]; [congruence|].
        exists fam', p'. split; assumption.
Qed.

(** Whenever a family of the mapping has both roles, the emitter raises
    [KeyError] and writes nothing. *)
Lemma write_callouts_tex_raises summary datadir fs :
  (exists fam p, (fam, p) ∈ family_to_macro /\ callout_values summary fam <> None) ->
  exists key, write_callouts_tex summary datadir fs = (fs, Raise (KeyError key)).
Proof.
  intros Hq. unfold write_callouts_tex, callouts_text.
  destruct (callout_loop_raises summary family_to_macro [] (fun _ _ H => H) Hq)
    as [key Hkey].
  rewrite Hkey. exists key. reflexivity.
Qed.

Lemma callouts_text_placeholder summary :
  (forall fam p, (fam, p) ∈ family_to_macro -> callout_values summary fam = None) ->
  callouts_text summary = Ok (callouts_placeholder +:+ newline).
Proof.
  intros Hnone. unfold callouts_text.
  rewrite (callout_loop_none summary family_to_macro [] Hnone). reflexivity.
Qed.

(** C1: on a summary where ["psk"] has a generalist row of accuracy 0.5 and
    a specialist row of accuracy 1.0, the emitter computes the three
    numbers, gain 50.0 among them, and then raises [KeyError] at the first
    [lines.append]: no macro is written, where the specification has
    [\PSKGeneralistAcc] = 50.0, [\PSKSpecialistAcc] = 100.0 and
    [\PSKGain] = 50.0. *)
Theorem C1_callouts_raise_for_qualifying_family :
  callout_values example_summary "psk"
  = Some (S754_finite false 4503599627370496 (-53), f1,
          S754_finite false 7036874417766400 (-47))
  /\ format_1f (S754_finite false 7036874417766400 (-47)) = "50.0"
  /\ callouts_text example_summary = Raise (KeyError "\PSKGeneralistAcc")
  /\ write_callouts_tex example_summary "data" ∅
     = (∅, Raise (KeyError "\PSKGeneralistAcc")).
Proof. repeat split; reflexivity. Qed.

Lemma table_row_in_table summary r :
  r ∈ summary -> table_row r ∈ table_lines summary.
Proof.
  intros Hin. unfold table_lines.
  apply elem_of_app. right. apply elem_of_app. left.
  apply list_elem_of_fmap. exists r. split; [reflexivity|exact Hin].
Qed.

Lemma table_body summary :
  take (length summary) (drop 8 (table_lines summary)) = map table_row summary.
Proof.
  unfold table_lines. cbn [app drop].
  rewrite <- (length_map table_row summary). apply take_app_length.
Qed.

Lemma families_of_perm summary :
  families_of summary ≡ₚ remove_dups (map (fun r => family (r_key r)) summary).
Proof. apply stable_sort_perm. Qed.

Lemma elem_of_families_of summary fam :
  fam ∈ families_of summary <-> exists r, r ∈ summary /\ family (r_key r) = fam.
Proof.
  rewrite families_of_perm, elem_of_remove_dups, list_elem_of_fmap.
  split; [intros (r & H1 & H2)|intros (r & H1 & H2)]; exists r; auto.
Qed.

Lemma with_role_nil role fam summary :
  (forall r, r ∈ summary -> family (r_key r) = fam -> model_role (r_key r) <> role) ->
  with_role role (with_family fam summary) = [].
Proof.
  intros Hnone. unfold with_role, with_family.
  induction summary as [|r summary IH]; [reflexivity|].
  cbn [List.filter].
  destruct (String.eqb_spec (family (r_key r)) fam) as [Hfam|Hfam].
  - cbn [List.filter].
    destruct (String.eqb_spec (model_role (r_key r)) role) as [Hrole|Hrole].
    + exfalso. apply (Hnone r); [left|exact Hfam|exact Hrole].
    + apply IH. intros r' Hr'. apply Hnone. right. exact Hr'.
  - apply IH. intros r' Hr'. apply Hnone. right. exact Hr'.
Qed.

(** ** The whole run *)

Lemma path_join_inj dir a b : path_join dir a = path_join dir b -> a = b.
Proof.
  unfold path_join. induction dir as [|c dir IH]; simpl.
  - intros [= H]. exact H.
  - intros [= H]. apply IH, H.
Qed.

Lemma callouts_path_ne_table_path datadir :
  path_join datadir "specialization_callouts.tex"
  <> path_join datadir "specialization_table.tex".
Proof. intros H. apply path_join_inj in H. discriminate. Qed.

(** [lower] at a text of ASCII characters, computed. *)
Ltac lower_ascii_literals :=
  repeat match goal with
         | |- context [lower ?s] => rewrite (lower_ascii_text s eq_refl)
         end;
  cbn [ascii_lower lower_ascii is_upper].

(** Writing the same files again leaves the store as it is. *)
Lemma main_idempotent json_loads args paths fs :
  main json_loads args paths (main json_loads args paths fs).1
  = main json_loads args paths fs.
Proof.
  unfold main.
  destruct (load_metrics json_loads (logdir args) (pattern args) (study args) paths)
    as [df|e]; [|reflexivity].
  unfold write_callouts_tex, write_table_tex, plot_family_delta,
    plot_specialization_gain.
  destruct (draw (gain_figure (summarize df (Some (arg_routing_mode args))).2))
    eqn:Hgain; cbn [fst snd]; rewrite ?Hgain; [reflexivity|].
  destruct (draw (delta_figure (summarize df (Some (arg_routing_mode args))).2))
    eqn:Hdelta; cbn [fst snd]; rewrite ?Hgain, ?Hdelta.
  { f_equal. apply map_eq; intros k; rewrite !lookup_insert;
      repeat case_decide; reflexivity. }
  destruct (callouts_text (summarize df (Some (arg_routing_mode args))).2)
    as [text|e]; cbn [fst snd]; rewrite ?Hgain, ?Hdelta; f_equal;
    apply map_eq; intros k; rewrite !lookup_insert;
    repeat case_decide; reflexivity.
Qed.

(** C10: a second run on the same files with the same arguments, started
    from the store the first run left, ends as the first did and leaves
    the callouts file and the table file as they were; and a run that
    ends normally leaves both files, the table being the rendering of the
    summary. *)
Theorem C10_rerun_leaves_tex_unchanged json_loads args paths fs :
  let run1 := main json_loads args paths fs in
  let run2 := main json_loads args paths run1.1 in
  run2.2 = run1.2
  /\ run2.1 !! path_join (datadir args) "specialization_callouts.tex"
     = run1.1 !! path_join (datadir args) "specialization_callouts.tex"
  /\ run2.1 !! path_join (datadir args) "specialization_table.tex"
     = run1.1 !! path_join (datadir args) "specialization_table.tex"
  /\ (run1.2 = Ok tt ->
      exists df text,
        load_metrics json_loads (logdir args) (pattern args) (study args) paths = Ok df
        /\ callouts_text (summarize df (Some (arg_routing_mode args))).2 = Ok text
        /\ run1.1 !! path_join (datadir args) "specialization_callouts.tex"
           = Some (TexFile text)
        /\ run1.1 !! path_join (datadir args) "specialization_table.tex"
           = Some (TexFile (join newline
                              (table_lines (summarize df (Some (arg_routing_mode args))).2)))).
Proof.
  intros run1 run2. subst run1 run2.
  rewrite main_idempotent. split; [reflexivity|]. split; [reflexivity|].
  split; [reflexivity|].
  unfold main.
  destruct (load_metrics json_loads (logdir args) (pattern args) (study args) paths)
    as [df|e] eqn:Hload; [|discriminate].
  unfold plot_specialization_gain, plot_family_delta.
  destruct (draw (gain_figure (summarize df (Some (arg_routing_mode args))).2));
    [discriminate|].
  destruct (draw (delta_figure (summarize df (Some (arg_routing_mode args))).2));
    [discriminate|].
  unfold write_callouts_tex.
  destruct (callouts_text (summarize df (Some (arg_routing_mode args))).2)
    as [text|e] eqn:Htext; cbn [fst snd]; [|discriminate].
  intros _. exists df, text. split; [reflexivity|]. split; [exact Htext|].
  unfold write_table_tex. split.
  - rewrite lookup_insert_ne by (apply not_eq_sym, callouts_path_ne_table_path).
    apply lookup_insert_eq.
  - apply lookup_insert_eq.
Qed.

(** C6: a corpus of one file with two usable records, ["psk"] once as
    generalist and once as specialist. [load_metrics] returns the two
    observations, so neither of the two stops applies; yet the run ends
    with status 1 and without the callouts file and the table file: once
    the two figures are drawn and written, [write_callouts_tex] raises
    [KeyError]. *)
Theorem C6_run_with_records_exits_nonzero json_loads line1 line2 :
  strip line1 <> "" -> strip line2 <> "" ->
  json_loads (strip line1) = Decoded (example_record "psk" "generalist" true) ->
  json_loads (strip line2) = Decoded (example_record "psk" "specialist" true) ->
  let run := main json_loads example_args [text_file [line1; line2]] ∅ in
  load_metrics json_loads "../logs" "metrics_*.jsonl" "s" [text_file [line1; line2]]
  = Ok [ {| o_key := {| family := "psk"; model_role := "generalist";
                        routing_mode := "none" |}; correct := true |};
         {| o_key := {| family := "psk"; model_role := "specialist";
                        routing_mode := "none" |}; correct := true |} ]
  /\ exit_code run.2 = 1
  /\ run.1 !! "data/specialization_callouts.tex" = None
  /\ run.1 !! "data/specialization_table.tex" = None
  /\ (draw (GainFigure ["psk"] [(f100, f100)]) = None ->
      draw (DeltaFigure ["psk"] [f0]) = None ->
      run.2 = Raise (KeyError "\PSKGeneralistAcc")
      /\ dom run.1 = {[ "figs/specialization_gain_vs_generalist.pdf";
                        "figs/family_confusion_deltas.pdf" ]}).
Proof.
  intros Hn1 Hn2 H1 H2.
  assert (Hload : load_metrics json_loads "../logs" "metrics_*.jsonl" "s"
                    [text_file [line1; line2]]
    = Ok [ {| o_key := {| family := "psk"; model_role := "generalist";
                          routing_mode := "none" |}; correct := true |};
           {| o_key := {| family := "psk"; model_role := "specialist";
                          routing_mode := "none" |}; correct := true |} ]).
  { unfold load_metrics, text_file. cbn [load_files load_lines file_lines file_error].
    destruct (String.eqb_spec (strip line1) ""); [contradiction|].
    destruct (String.eqb_spec (strip line2) ""); [contradiction|].
    rewrite H1, H2. unfold example_record, load_record.
    cbn [py_get assoc String.eqb Ascii.eqb Bool.eqb mbind outcome_bind py_or truthy
         is_None orb negb py_str].
    lower_ascii_literals. reflexivity. }
  assert (Hsummary :
    (summarize [ {| o_key := {| family := "psk"; model_role := "generalist";
                                routing_mode := "none" |}; correct := true |};
                 {| o_key := {| family := "psk"; model_role := "specialist";
                                routing_mode := "none" |}; correct := true |} ]
               (Some "oracle")).2
    = [ {| r_key := {| family := "psk"; model_role := "generalist";
                       routing_mode := "none" |}; n := 1; accuracy := f1 |};
        {| r_key := {| family := "psk"; model_role := "specialist";
                       routing_mode := "none" |}; n := 1; accuracy := f1 |} ]).
  { unfold summarize, select_routing, routing_mask.
    cbn [existsb o_key routing_mode String.eqb Ascii.eqb Bool.eqb].
    lower_ascii_literals. vm_compute. reflexivity. }
  cbn zeta. unfold main. cbn [logdir pattern study outdir datadir arg_routing_mode
                               example_args].
  rewrite Hload, Hsummary.
  unfold plot_specialization_gain, plot_family_delta.
  change (gain_figure _) with (GainFigure ["psk"] [(f100, f100)]).
  change (delta_figure _) with (DeltaFigure ["psk"] [f0]).
  split; [reflexivity|].
  destruct (draw (GainFigure ["psk"] [(f100, f100)])) as [e1|];
    [repeat split; try reflexivity; discriminate|].
  destruct (draw (DeltaFigure ["psk"] [f0])) as [e2|].
  { cbn [fst snd exit_code]. split; [reflexivity|].
    split; [vm_compute; reflexivity|]. split; [vm_compute; reflexivity|].
    discriminate. }
  cbn [fst snd].
  split; [reflexivity|].
  split; [vm_compute; reflexivity|]. split; [vm_compute; reflexivity|].
  intros _ _. split; [reflexivity|]. vm_compute. reflexivity.
Qed.

(** ** Quotients of counts in binary64 *)

Lemma digits2_pos_bounds p :
  2 ^ (Zpos (digits2_pos p) - 1) <= Zpos p < 2 ^ Zpos (digits2_pos p).
Proof.
  induction p as [p IH|p IH|]; cbn [digits2_pos].
  - rewrite Pos2Z.inj_succ.
    replace (Z.succ (Zpos (digits2_pos p)) - 1) with (Z.succ (Zpos (digits2_pos p) - 1)) by lia.
    rewrite !Z.pow_succ_r by lia. lia.
  - rewrite Pos2Z.inj_succ.
    replace (Z.succ (Zpos (digits2_pos p)) - 1) with (Z.succ (Zpos (digits2_pos p) - 1)) by lia.
    rewrite !Z.pow_succ_r by lia. lia.
  - cbn. lia.
Qed.

Lemma digits2_pos_unique p d :
  2 ^ (d - 1) <= Zpos p < 2 ^ d -> Zpos (digits2_pos p) = d.
Proof.
  intros [Hlo Hhi]. pose proof (digits2_pos_bounds p) as [Blo Bhi].
  set (d' := Zpos (digits2_pos p)) in *.
  assert (0 < d') by (subst d'; lia).
  destruct (Z.lt_trichotomy d' d) as [Hlt|[Heq|Hgt]]; [|exact Heq|].
  - exfalso. assert (2 ^ d' <= 2 ^ (d - 1)) by (apply Z.pow_le_mono_r; lia). lia.
  - exfalso. destruct (Z_lt_le_dec d 0) as [Hneg|Hnn].
    + rewrite (Z.pow_neg_r 2 d) in Hhi by lia. lia.
    + assert (2 ^ d <= 2 ^ (d' - 1)) by (apply Z.pow_le_mono_r; lia). lia.
Qed.

Lemma iter_xO_mul p s : Zpos (Pos.iter xO p s) = Zpos p * 2 ^ Zpos s.
Proof.
  induction s as [|s IH] using Pos.peano_ind.
  - cbn. lia.
  - rewrite Pos.iter_succ, Pos2Z.inj_succ, Z.pow_succ_r by lia.
    rewrite Pos2Z.inj_xO, IH. lia.
Qed.

Lemma Zdigits2_53 q : 4503599627370496 <= q < 9007199254740992 -> Zdigits2 q = 53.
Proof.
  intros H. destruct q as [|p|p]; try lia. cbn [Zdigits2].
  apply digits2_pos_unique. change (2 ^ (53 - 1)) with 4503599627370496.
  change (2 ^ 53) with 9007199254740992. exact H.
Qed.

Lemma Zdigits2_54 q : 9007199254740992 <= q < 18014398509481984 -> Zdigits2 q = 54.
Proof.
  intros H. destruct q as [|p|p]; try lia. cbn [Zdigits2].
  apply digits2_pos_unique. change (2 ^ (54 - 1)) with 9007199254740992.
  change (2 ^ 54) with 18014398509481984. exact H.
Qed.

Lemma shr_fexp_53 q e l :
  4503599627370496 <= q < 9007199254740992 -> -1074 <= e ->
  shr_fexp prec emax q e l = (shr_record_of_loc q l, e).
Proof.
  intros Hq He. unfold shr_fexp. rewrite (Zdigits2_53 q Hq).
  replace (fexp prec emax (53 + e) - e) with 0
    by (unfold fexp, emin, prec, emax; lia).
  reflexivity.
Qed.

Lemma shr_fexp_54 q e l :
  9007199254740992 <= q < 18014398509481984 -> -1075 <= e ->
  shr_fexp prec emax q e l = (shr_1 (shr_record_of_loc q l), e + 1).
Proof.
  intros Hq He. unfold shr_fexp. rewrite (Zdigits2_54 q Hq).
  replace (fexp prec emax (54 + e) - e) with 1
    by (unfold fexp, emin, prec, emax; lia).
  reflexivity.
Qed.

Lemma shr_m_of_loc q l : shr_m (shr_record_of_loc q l) = q.
Proof. destruct l as [|[]]; reflexivity. Qed.

Lemma loc_of_shr_of_loc q l : loc_of_shr_record (shr_record_of_loc q l) = l.
Proof. destruct l as [|[]]; reflexivity. Qed.

Lemma shr_m_shr_1 q l : 2 <= q -> shr_m (shr_1 (shr_record_of_loc q l)) = q / 2.
Proof.
  intros Hq. destruct q as [|p|p]; try lia.
  destruct p as [p|p|]; try lia.
  - assert (Hd : Z.pos p~1 / 2 = Zpos p).
    { symmetry. apply (Z.div_unique _ _ _ 1); lia. }
    rewrite Hd. destruct l as [|[]]; reflexivity.
  - assert (Hd : Z.pos p~0 / 2 = Zpos p).
    { symmetry. apply (Z.div_unique _ _ _ 0); lia. }
    rewrite Hd. destruct l as [|[]]; reflexivity.
Qed.

Lemma round_nearest_even_cases m l :
  round_nearest_even m l = m \/ round_nearest_even m l = m + 1.
Proof.
  destruct l as [|[]]; cbn [round_nearest_even]; auto.
  destruct (Z.even m); auto.
Qed.

(** The last step of [binary_round_aux] on a mantissa of 53 digits, or on
    2^53. *)
Lemma round_finish m e :
  4503599627370496 <= m <= 9007199254740992 -> -1074 <= e <= 900 ->
  (let '(mrs, e') := shr_fexp prec emax m e loc_Exact in
   match shr_m mrs with
   | Z0 => S754_zero false
   | Zpos m0 => if e' <=? emax - prec then S754_finite false m0 e'
                else S754_infinity false
   | Zneg _ => S754_nan
   end)
  = if m <? 9007199254740992 then S754_finite false (Z.to_pos m) e
    else S754_finite false 4503599627370496 (e + 1).
Proof.
  intros Hm He. destruct (Z.ltb_spec m 9007199254740992) as [Hlt|Hge].
  - rewrite shr_fexp_53 by lia. cbn [shr_record_of_loc shr_m].
    destruct m as [|p|p]; try lia. cbn [Z.to_pos].
    replace (e <=? emax - prec) with true; [reflexivity|].
    symmetry. apply Z.leb_le. unfold emax, prec. lia.
  - assert (m = 9007199254740992) by lia. subst m.
    rewrite shr_fexp_54 by lia. cbn [shr_record_of_loc shr_1 shr_m].
    replace (e + 1 <=? emax - prec) with true; [reflexivity|].
    symmetry. apply Z.leb_le. unfold emax, prec. lia.
Qed.

Lemma round_aux_shape q e l :
  4503599627370496 <= q < 18014398509481984 -> -1000 <= e <= 0 ->
  exists m' e',
    binary_round_aux prec emax false q e l = S754_finite false m' e'
    /\ (e' <= e + 1 \/ (e' = e + 2 /\ m' = 4503599627370496%positive))
    /\ (q < 9007199254740992 ->
        e' <= e \/ (e' = e + 1 /\ m' = 4503599627370496%positive)).
Proof.
  intros Hq He. unfold binary_round_aux.
  destruct (Z.ltb_spec q 9007199254740992) as [Hlt|Hge].
  - rewrite shr_fexp_53 by lia. rewrite shr_m_of_loc, loc_of_shr_of_loc.
    rewrite round_finish.
    + destruct (Z.ltb_spec (round_nearest_even q l) 9007199254740992);
        eexists _, _; (split; [reflexivity|]); split; auto; lia.
    + destruct (round_nearest_even_cases q l) as [-> | ->]; lia.
    + lia.
  - rewrite shr_fexp_54 by lia.
    pose proof (shr_m_shr_1 q l ltac:(lia)) as Hm.
    assert (Hq2 : 4503599627370496 <= q / 2 < 9007199254740992).
    { split.
      - apply Z.div_le_lower_bound; lia.
      - apply Z.div_lt_upper_bound; lia. }
    rewrite Hm. rewrite round_finish.
    + destruct (Z.ltb_spec
                  (round_nearest_even (q / 2)
                     (loc_of_shr_record (shr_1 (shr_record_of_loc q l))))
                  9007199254740992);
        eexists _, _; (split; [reflexivity|]); split; first [lia | auto with zarith].
    + destruct (round_nearest_even_cases (q / 2)
                  (loc_of_shr_record (shr_1 (shr_record_of_loc q l)))) as [-> | ->]; lia.
    + lia.
Qed.

Lemma round_aux_exact m e :
  4503599627370496 <= m < 9007199254740992 -> -1074 <= e <= 900 ->
  binary_round_aux prec emax false m e loc_Exact = S754_finite false (Z.to_pos m) e.
Proof.
  intros Hm He. unfold binary_round_aux.
  rewrite shr_fexp_53 by lia. cbn [shr_record_of_loc shr_m loc_of_shr_record round_nearest_even].
  rewrite round_finish by lia.
  destruct (Z.ltb_spec m 9007199254740992); [reflexivity|lia].
Qed.

Lemma Zdigits2_le_53 z : 0 < z < 9007199254740992 -> 1 <= Zdigits2 z <= 53.
Proof.
  intros Hz. destruct z as [|p|p]; try lia. cbn [Zdigits2].
  pose proof (digits2_pos_bounds p) as [Blo _]. split; [lia|].
  destruct (Z_le_gt_dec (Zpos (digits2_pos p)) 53) as [|Hgt]; [assumption|exfalso].
  assert (2 ^ 53 <= 2 ^ (Zpos (digits2_pos p) - 1)) by (apply Z.pow_le_mono_r; lia).
  change (2 ^ 53) with 9007199254740992 in *. lia.
Qed.

Lemma Zdigits2_mono k n : 0 < k <= n -> Zdigits2 k <= Zdigits2 n.
Proof.
  intros Hkn. destruct k as [|p|p]; try lia. destruct n as [|q|q]; try lia.
  cbn [Zdigits2].
  pose proof (digits2_pos_bounds p) as [Plo _].
  pose proof (digits2_pos_bounds q) as [_ Qhi].
  destruct (Z_le_gt_dec (Zpos (digits2_pos p)) (Zpos (digits2_pos q))) as [|Hgt];
    [assumption|exfalso].
  assert (2 ^ Zpos (digits2_pos q) <= 2 ^ (Zpos (digits2_pos p) - 1))
    by (apply Z.pow_le_mono_r; lia).
  lia.
Qed.

(** [float(z)] for [0 < z < 2^53] is exact: a mantissa of 53 digits. *)
Lemma float_of_Z_normal z :
  0 < z < 9007199254740992 ->
  exists m,
    float_of_Z z = S754_finite false m (Zdigits2 z - 53)
    /\ Zpos m = z * 2 ^ (53 - Zdigits2 z)
    /\ 4503599627370496 <= Zpos m < 9007199254740992.
Proof.
  intros Hz. pose proof (Zdigits2_le_53 z Hz) as Hd.
  destruct z as [|p|p]; try lia. cbn [Zdigits2] in *.
  pose proof (digits2_pos_bounds p) as [Blo Bhi].
  set (d := Zpos (digits2_pos p)) in *.
  assert (Hpow : 2 ^ (d - 1) * 2 ^ (53 - d) = 4503599627370496).
  { rewrite <- Z.pow_add_r by lia. replace (d - 1 + (53 - d)) with 52 by lia.
    reflexivity. }
  assert (Hpow' : 2 ^ d * 2 ^ (53 - d) = 9007199254740992).
  { rewrite <- Z.pow_add_r by lia. replace (d + (53 - d)) with 53 by lia.
    reflexivity. }
  assert (Hpos : 0 < 2 ^ (53 - d)) by (apply Z.pow_pos_nonneg; lia).
  assert (Hrange : 4503599627370496 <= Zpos p * 2 ^ (53 - d) < 9007199254740992) by nia.
  unfold float_of_Z. cbn [binary_normalize]. unfold binary_round.
  fold d. replace (fexp prec emax (d + 0)) with (d - 53)
    by (unfold fexp, emin, prec, emax; lia).
  unfold shl_align.
  destruct (d - 53 - 0) as [|s|s] eqn:Hs; try lia.
  - assert (d = 53) by lia.
    exists p. replace (53 - d) with 0 in * by lia.
    rewrite Z.pow_0_r, Z.mul_1_r in *.
    rewrite round_aux_exact by lia. cbn [Z.to_pos].
    repeat split; try lia. f_equal. lia.
  - assert (Hs' : Zpos s = 53 - d) by lia.
    exists (Pos.iter xO p s).
    assert (Hm : Zpos (Pos.iter xO p s) = Zpos p * 2 ^ (53 - d))
      by (rewrite iter_xO_mul, Hs'; reflexivity).
    rewrite round_aux_exact by lia. cbn [Z.to_pos].
    repeat split; lia.
Qed.

Lemma fleb_f1 m e :
  e < -52 \/ (e = -52 /\ m = 4503599627370496%positive) ->
  fleb (S754_finite false m e) f1 = true.
Proof.
  intros H. unfold fleb, SFleb, f1. cbn [SFcompare].
  destruct (Z.compare_spec e (-52)) as [Heq|Hlt|Hgt]; try reflexivity; try lia.
  destruct H as [|[_ ->]]; [lia|reflexivity].
Qed.

Lemma new_location_zero nb : new_location nb 0 = loc_Exact.
Proof. unfold new_location. destruct (Z.even nb); reflexivity. Qed.

Lemma SFdiv_core_normal mk ek mn en :
  4503599627370496 <= Zpos mk < 9007199254740992 ->
  4503599627370496 <= Zpos mn < 9007199254740992 ->
  -52 <= ek <= 0 -> -52 <= en <= 0 ->
  SFdiv_core_binary prec emax (Zpos mk) ek (Zpos mn) en
  = (let '(q, r) := Z.div_eucl (Zpos mk * 9007199254740992) (Zpos mn) in
     (q, ek - en - 53, new_location (Zpos mn) r)).
Proof.
  intros Hk Hn Hek Hen. unfold SFdiv_core_binary.
  rewrite (Zdigits2_53 _ Hk), (Zdigits2_53 _ Hn).
  assert (He : Z.min (fexp prec emax (53 + ek - (53 + en))) (ek - en) = ek - en - 53)
    by (unfold fexp, emin, prec, emax; lia).
  rewrite He. replace (ek - en - (ek - en - 53)) with 53 by lia.
  rewrite Z.shiftl_mul_pow2 by lia. reflexivity.
Qed.

(** The quotient of two normal floats [x <= y] lies in [0, 1]. *)
Lemma fdiv_normal_le mk ek mn en :
  4503599627370496 <= Zpos mk < 9007199254740992 ->
  4503599627370496 <= Zpos mn < 9007199254740992 ->
  -52 <= ek <= 0 -> -52 <= en <= 0 ->
  ek < en \/ (ek = en /\ Zpos mk <= Zpos mn) ->
  fleb f0 (fdiv (S754_finite false mk ek) (S754_finite false mn en)) = true
  /\ fleb (fdiv (S754_finite false mk ek) (S754_finite false mn en)) f1 = true.
Proof.
  intros Hk Hn Hek Hen Hle. unfold fdiv. cbn [SFdiv xorb].
  rewrite (SFdiv_core_normal mk ek mn en Hk Hn Hek Hen).
  pose proof (Z_div_mod (Zpos mk * 9007199254740992) (Zpos mn) ltac:(lia)) as Hdm.
  destruct (Z.div_eucl (Zpos mk * 9007199254740992) (Zpos mn)) as [q r].
  destruct Hdm as [Hdiv Hr].
  assert (Hlo : 4503599627370496 <= q) by nia.
  assert (Hhi : q < 18014398509481984) by nia.
  destruct (Z.eq_dec (Zpos mk) (Zpos mn)) as [Heq|Hne];
    [destruct (Z.eq_dec ek en) as [Hee|Hee]|].
  - (* the two floats are equal: the quotient is exactly 1.0 *)
    assert (q = 9007199254740992) by nia. assert (r = 0) by nia. subst q r.
    rewrite new_location_zero. replace (ek - en - 53) with (-53) by lia.
    split; vm_compute; reflexivity.
  - destruct (round_aux_shape q (ek - en - 53) (new_location (Zpos mn) r)
                ltac:(lia) ltac:(lia)) as (m' & e' & -> & Hany & _).
    split; [reflexivity|]. apply fleb_f1. lia.
  - destruct (round_aux_shape q (ek - en - 53) (new_location (Zpos mn) r)
                ltac:(lia) ltac:(lia)) as (m' & e' & -> & Hany & Hsmall).
    split; [reflexivity|]. apply fleb_f1.
    destruct Hle as [Hlt|[Hee Hmle]]; [lia|].
    assert (Hq : q < 9007199254740992) by nia.
    specialize (Hsmall Hq). lia.
Qed.

Lemma fdiv_counts_unit k n :
  0 <= k <= n -> 0 < n < 9007199254740992 ->
  fleb f0 (fdiv (float_of_Z k) (float_of_Z n)) = true
  /\ fleb (fdiv (float_of_Z k) (float_of_Z n)) f1 = true.
Proof.
  intros Hk Hn.
  destruct (float_of_Z_normal n Hn) as (mn & -> & Hmn & Hnr).
  pose proof (Zdigits2_le_53 n Hn) as Hdn.
  destruct (Z.eq_dec k 0) as [->|Hk0].
  - split; reflexivity.
  - assert (Hk' : 0 < k < 9007199254740992) by lia.
    destruct (float_of_Z_normal k Hk') as (mk & -> & Hmk & Hkr).
    pose proof (Zdigits2_le_53 k Hk') as Hdk.
    pose proof (Zdigits2_mono k n ltac:(lia)) as Hmono.
    apply fdiv_normal_le; try lia.
    destruct (Z.eq_dec (Zdigits2 k) (Zdigits2 n)) as [Hd|Hd]; [right|left; lia].
    split; [lia|]. rewrite Hmk, Hmn, Hd.
    apply Z.mul_le_mono_nonneg_r; [|lia].
    apply Z.pow_nonneg. lia.
Qed.

(** ** Rows of the summary *)

Lemma select_routing_length df routing :
  (length (snd (select_routing df routing)) <= length df)%nat.
Proof.
  unfold select_routing. destruct routing as [rm|]; [|reflexivity].
  destruct (String.eqb rm ""); [reflexivity|].
  destruct (existsb _ df); cbn [snd]; [apply filter_length_le|reflexivity].
Qed.

Lemma elem_of_summarize df routing row :
  row ∈ snd (summarize df routing) ->
  let surviving := snd (select_routing df routing) in
  (exists o, o ∈ surviving /\ o_key o = r_key row)
  /\ n row = length (group_of surviving (r_key row))
  /\ accuracy row = mean (group_of surviving (r_key row)).
Proof.
  unfold summarize. destruct (select_routing df routing) as [printed surv].
  cbn [snd]. rewrite (stable_sort_perm row_leb (groupby_agg surv)).
  unfold groupby_agg. intros Hin.
  apply list_elem_of_fmap in Hin as (k & -> & Hk). cbn [r_key n accuracy].
  apply elem_of_group_keys in Hk. auto.
Qed.

Lemma group_of_length_pos df o :
  o ∈ df -> (1 <= length (group_of df (o_key o)))%nat.
Proof.
  intros Hin.
  assert (Hg : In o (group_of df (o_key o))).
  { apply filter_In. split; [apply list_elem_of_In, Hin|].
    apply bool_decide_eq_true. reflexivity. }
  destruct (group_of df (o_key o)); [destruct Hg|simpl; lia].
Qed.

(** C3: for fewer than 2^53 observations, every row of the summary has
    [n >= 1], [n] is the size of its group among the surviving
    observations, [accuracy] is the float quotient of the number of
    correct observations of the group by [n], and
    [0.0 <= accuracy <= 1.0]. *)
Theorem C3_row_count_and_accuracy df routing row :
  Z.of_nat (length df) < 9007199254740992 ->
  row ∈ snd (summarize df routing) ->
  let g := group_of (snd (select_routing df routing)) (r_key row) in
  (1 <= n row)%nat
  /\ n row = length g
  /\ (count_correct g <= n row)%nat
  /\ accuracy row
     = fdiv (float_of_Z (Z.of_nat (count_correct g))) (float_of_Z (Z.of_nat (n row)))
  /\ fleb f0 (accuracy row) = true
  /\ fleb (accuracy row) f1 = true.
Proof.
  intros Hsize Hin g.
  destruct (elem_of_summarize df routing row Hin) as ((o & Ho & Hkey) & Hn & Hacc).
  fold g in Hn, Hacc.
  assert (Hpos : (1 <= length g)%nat).
  { subst g. rewrite <- Hkey. apply group_of_length_pos, Ho. }
  assert (Hle : (length g <= length df)%nat).
  { subst g. unfold group_of.
    etransitivity; [apply filter_length_le|apply select_routing_length]. }
  assert (Hcount : (count_correct g <= length g)%nat).
  { unfold count_correct. apply filter_length_le. }
  assert (Hmean : accuracy row
                  = fdiv (float_of_Z (Z.of_nat (count_correct g)))
                         (float_of_Z (Z.of_nat (n row)))).
  { rewrite Hacc, Hn. reflexivity. }
  rewrite Hmean, Hn.
  destruct (fdiv_counts_unit (Z.of_nat (count_correct g)) (Z.of_nat (length g)))
    as [H0 H1]; [lia|lia|].
  repeat split; try assumption; lia.
Qed.

(** ** Order of strings and of sort keys *)

Lemma ascii_compare_eq a b : Ascii.compare a b = Eq -> a = b.
Proof.
  unfold Ascii.compare. intros H. apply N.compare_eq in H.
  rewrite <- (ascii_N_embedding a), <- (ascii_N_embedding b), H. reflexivity.
Qed.

Lemma ascii_compare_lt_trans a b c :
  Ascii.compare a b = Lt -> Ascii.compare b c = Lt -> Ascii.compare a c = Lt.
Proof.
  unfold Ascii.compare. rewrite !N.compare_lt_iff. lia.
Qed.

Lemma string_compare_lt_trans a b c :
  String.compare a b = Lt -> String.compare b c = Lt -> String.compare a c = Lt.
Proof.
  revert b c. induction a as [|x a IH]; intros [|y b] [|z c]; cbn [String.compare];
    try discriminate; try reflexivity.
  destruct (Ascii.compare x y) eqn:Hxy; try discriminate;
    destruct (Ascii.compare y z) eqn:Hyz; try discriminate; intros Hab Hbc.
  - apply ascii_compare_eq in Hxy, Hyz. subst. 
    assert (Hzz : Ascii.compare z z = Eq) by (unfold Ascii.compare; apply N.compare_refl).
    rewrite Hzz. eapply IH; eassumption.
  - apply ascii_compare_eq in Hxy. subst. rewrite Hyz. reflexivity.
  - apply ascii_compare_eq in Hyz. subst. rewrite Hxy. reflexivity.
  - rewrite (ascii_compare_lt_trans x y z Hxy Hyz). reflexivity.
Qed.

Lemma string_compare_gt_lt a b : String.compare a b = Gt -> String.compare b a = Lt.
Proof. intros H. rewrite String.compare_antisym, H. reflexivity. Qed.

Lemma string_compare_refl a : String.compare a a = Eq.
Proof.
  induction a as [|x a IH]; cbn [String.compare]; [reflexivity|].
  assert (Hxx : Ascii.compare x x = Eq) by (unfold Ascii.compare; apply N.compare_refl).
  rewrite Hxx. exact IH.
Qed.

Lemma lex_leb_total a b : lex_leb a b = true \/ lex_leb b a = true.
Proof.
  revert b. induction a as [|x a IH]; intros [|y b]; cbn [lex_leb]; auto.
  rewrite (String.compare_antisym x y).
  destruct (String.compare y x); cbn [CompOpp]; auto.
Qed.

Lemma lex_leb_trans a b c :
  lex_leb a b = true -> lex_leb b c = true -> lex_leb a c = true.
Proof.
  revert b c. induction a as [|x a IH]; intros [|y b] [|z c]; cbn [lex_leb];
    try discriminate; try reflexivity.
  destruct (String.compare x y) eqn:Hxy; try discriminate;
    destruct (String.compare y z) eqn:Hyz; try discriminate; intros Hab Hbc.
  - apply String.compare_eq_iff in Hxy, Hyz. subst.
    rewrite string_compare_refl. eapply IH; eassumption.
  - apply String.compare_eq_iff in Hxy. subst. rewrite Hyz. reflexivity.
  - apply String.compare_eq_iff in Hyz. subst. rewrite Hxy. reflexivity.
  - rewrite (string_compare_lt_trans x y z Hxy Hyz). reflexivity.
Qed.

Lemma lex_leb_antisym a b :
  length a = length b -> lex_leb a b = true -> lex_leb b a = true -> a = b.
Proof.
  revert b. induction a as [|x a IH]; intros [|y b]; cbn [lex_leb length];
    try discriminate; try reflexivity.
  intros [= Hlen] Hab Hba. rewrite (String.compare_antisym y x) in Hba.
  destruct (String.compare x y) eqn:Hxy; cbn [CompOpp] in Hba; try discriminate.
  apply String.compare_eq_iff in Hxy. subst.
  f_equal. apply IH; assumption.
Qed.

#[local] Instance key_leb_trans : Transitive (fun a b => key_leb a b = true).
Proof. intros a b c. apply lex_leb_trans. Qed.

#[local] Instance key_leb_antisym : AntiSymm (=) (fun a b => key_leb a b = true).
Proof.
  intros [fa ra ma] [fb rb mb] Hab Hba. unfold key_leb in *. cbn in Hab, Hba.
  assert (H : [fa; ra; ma] = [fb; rb; mb]) by (apply lex_leb_antisym; auto).
  congruence.
Qed.

#[local] Instance str_leb_trans : Transitive (fun a b => str_leb a b = true).
Proof.
  intros a b c Hab Hbc. pose proof (lex_leb_trans [a] [b] [c]) as H.
  unfold str_leb, String.leb in *. cbn [lex_leb] in H.
  destruct (String.compare a b), (String.compare b c), (String.compare a c);
    try reflexivity; try discriminate; apply H; reflexivity.
Qed.

#[local] Instance str_leb_antisym : AntiSymm (=) (fun a b => str_leb a b = true).
Proof. intros a b Hab Hba. apply String.leb_antisym; assumption. Qed.

Section SortedFacts.
Context {A : Type} (leb : A -> A -> bool).
Hypothesis leb_total : forall a b, leb a b = true \/ leb b a = true.

Lemma insert_sorted_Sorted x l :
  Sorted (fun a b => leb a b = true) l ->
  Sorted (fun a b => leb a b = true) (insert_sorted leb x l).
Proof.
  induction l as [|y l IH]; intros Hs; cbn [insert_sorted].
  - repeat constructor.
  - destruct (leb x y) eqn:Hxy.
    + constructor; [exact Hs|]. constructor. exact Hxy.
    + apply Sorted_inv in Hs as [Hs Hhd]. constructor; [apply IH, Hs|].
      destruct l as [|z l]; cbn [insert_sorted].
      * constructor. destruct (leb_total x y); congruence.
      * destruct (leb x z); constructor.
        -- destruct (leb_total x y); congruence.
        -- apply HdRel_inv in Hhd. exact Hhd.
Qed.

Lemma stable_sort_Sorted l : Sorted (fun a b => leb a b = true) (stable_sort leb l).
Proof.
  induction l as [|x l IH]; cbn [stable_sort foldr]; [constructor|].
  apply insert_sorted_Sorted, IH.
Qed.
End SortedFacts.

Lemma key_leb_total a b : key_leb a b = true \/ key_leb b a = true.
Proof. apply lex_leb_total. Qed.

Lemma row_leb_total a b : row_leb a b = true \/ row_leb b a = true.
Proof. apply lex_leb_total. Qed.

Lemma str_leb_total a b : str_leb a b = true \/ str_leb b a = true.
Proof. apply String.leb_total. Qed.

(** ** More on the extractor *)

(** What [load_record] returns, case by case. *)
Lemma load_record_cases study obj :
  match obj with
  | JObj top =>
      match assoc "study" top with
      | Some (JStr s) =>
          if String.eqb s study then
            match record_data top with
            | Some d =>
                load_record study obj
                = Ok (if incomplete d then None
                      else Some {| o_key :=
                                     {| family := lower (py_str (chosen d "family" "true_family"));
                                        model_role := lower (py_str (chosen d "model_role" "role"));
                                        routing_mode := lower (py_str (chosen_routing d)) |};
                                   correct := truthy (field d "correct") |})
            | None => exists msg, load_record study obj = Raise (AttributeError msg)
            end
          else load_record study obj = Ok None
      | _ => load_record study obj = Ok None
      end
  | _ => exists msg, load_record study obj = Raise (AttributeError msg)
  end.
Proof.
  destruct obj as [| | | | | |top]; try (eexists; reflexivity).
  destruct (assoc "study" top) as [st|] eqn:Hst.
  - destruct st as [| | | |s| |];
      try (unfold load_record; cbn [py_get mbind outcome_bind]; rewrite Hst; reflexivity).
    destruct (String.eqb_spec s study) as [->|Hne].
    + destruct (record_data top) as [d|] eqn:Hd.
      * apply load_record_dict; assumption.
      * unfold load_record. cbn [py_get mbind outcome_bind].
        rewrite Hst, String.eqb_refl. unfold record_data in Hd.
        destruct (assoc "data" top) as [[]|]; try discriminate;
          eexists; reflexivity.
    + unfold load_record. cbn [py_get mbind outcome_bind]. rewrite Hst.
      destruct (String.eqb_spec s study); [contradiction|reflexivity].
  - unfold load_record. cbn [py_get mbind outcome_bind]. rewrite Hst. reflexivity.
Qed.

Lemma load_record_raise_kind study obj e :
  load_record study obj = Raise e -> exists msg, e = AttributeError msg.
Proof.
  pose proof (load_record_cases study obj) as H. intros Hr.
  destruct obj as [| | | | | |top].
  1-6: destruct H as [msg H]; rewrite H in Hr; injection Hr as <-; eauto.
  destruct (assoc "study" top) as [[| | | |s| |]|]; try congruence.
  destruct (String.eqb s study); [|congruence].
  destruct (record_data top) as [d|].
  - rewrite H in Hr. discriminate.
  - destruct H as [msg H]. rewrite H in Hr. injection Hr as <-. eauto.
Qed.

Lemma str_of_Z_not_nil z : str_of_Z z <> "".
Proof.
  unfold str_of_Z, NilZero.string_of_int.
  destruct (Z.to_int z) as [d|d]; [|discriminate].
  unfold NilZero.string_of_uint. destruct d; discriminate.
Qed.

Lemma py_str_truthy_not_nil v : truthy v = true -> py_str v <> "".
Proof.
  destruct v as [|[]|z|f|s|xs|kvs]; cbn [truthy py_str py_repr]; try discriminate.
  - intros _. apply str_of_Z_not_nil.
  - intros _. apply float_repr_not_nil.
  - destruct (String.eqb_spec s ""); [discriminate|auto].
Qed.

Lemma chosen_routing_truthy d : truthy (chosen_routing d) = true.
Proof.
  unfold chosen_routing.
  destruct (truthy (field d "routing_mode")) eqn:H1; [exact H1|].
  destruct (truthy (field d "routing")) eqn:H2; [exact H2|reflexivity].
Qed.

Lemma load_record_normalized study obj o :
  load_record study obj = Ok (Some o) -> normalized o.
Proof.
  pose proof (load_record_cases study obj) as H. intros Hr.
  destruct obj as [| | | | | |top]; try (destruct H as [msg H]; congruence).
  destruct (assoc "study" top) as [[| | | |s| |]|]; try congruence.
  destruct (String.eqb s study); [|congruence].
  destruct (record_data top) as [d|]; [|destruct H as [msg H]; congruence].
  rewrite H in Hr. destruct (incomplete d); [discriminate|].
  injection Hr as <-. unfold normalized. cbn [o_key family model_role routing_mode].
  rewrite !lower_idem. repeat split; try reflexivity.
  intros Hnil. apply lower_not_nil in Hnil.
  exact (py_str_truthy_not_nil _ (chosen_routing_truthy d) Hnil).
Qed.

Section LoaderMore.
Variable json_loads : string -> decoded.

Lemma load_lines_acc study lines records :
  load_lines json_loads study lines records
  = (r ← load_lines json_loads study lines []; Ok (records ++ r)).
Proof.
  revert records. induction lines as [|l lines IH]; intros records.
  - cbn. rewrite app_nil_r. reflexivity.
  - cbn [load_lines].
    destruct (String.eqb (strip l) ""); [apply IH|].
    destruct (json_loads (strip l)) as [obj| |e]; [|apply IH|reflexivity].
    destruct (load_record study obj) as [[o|]|e]; cbn [mbind outcome_bind];
      [|apply IH|reflexivity].
    rewrite (IH (records ++ [o])), (IH ([] ++ [o])).
    destruct (load_lines json_loads study lines []) as [r|e]; cbn [mbind outcome_bind];
      [|reflexivity].
    rewrite <- app_assoc. reflexivity.
Qed.

Lemma load_files_acc study files records :
  load_files json_loads study files records
  = (r ← load_files json_loads study files []; Ok (records ++ r)).
Proof.
  revert records. induction files as [|f files IH]; intros records.
  - cbn. rewrite app_nil_r. reflexivity.
  - cbn [load_files]. rewrite (load_lines_acc study (file_lines f) records).
    destruct (load_lines json_loads study (file_lines f) []) as [r|e];
      cbn [mbind outcome_bind]; [|reflexivity].
    destruct (file_error f) as [e|]; [reflexivity|].
    rewrite (IH (records ++ r)), (IH r).
    destruct (load_files json_loads study files []) as [r'|e]; cbn [mbind outcome_bind];
      [|reflexivity].
    rewrite <- app_assoc. reflexivity.
Qed.

(** X1: the records of a corpus are the records of its files, in
    order: loading [files1 ++ files2] gives the records of [files1]
    followed by those of [files2], and raises what the first failing part
    raises. *)
Theorem load_files_app study files1 files2 :
  load_files json_loads study (files1 ++ files2) []
  = (r1 ← load_files json_loads study files1 [];
     r2 ← load_files json_loads study files2 [];
     Ok (r1 ++ r2)).
Proof.
  assert (Hgen : forall records,
    load_files json_loads study (files1 ++ files2) records
    = (r1 ← load_files json_loads study files1 records;
       load_files json_loads study files2 r1)).
  { induction files1 as [|f files1 IH]; intros records; [reflexivity|].
    cbn [app load_files].
    destruct (load_lines json_loads study (file_lines f) records) as [r|e];
      cbn [mbind outcome_bind]; [|reflexivity].
    destruct (file_error f) as [e|]; [reflexivity|apply IH]. }
  rewrite Hgen.
  destruct (load_files json_loads study files1 []) as [r1|e]; cbn [mbind outcome_bind];
    [|reflexivity].
  apply load_files_acc.
Qed.

Lemma load_lines_invariant (P : observation -> Prop) study lines records out :
  (forall obj o, load_record study obj = Ok (Some o) -> P o) ->
  Forall P records ->
  load_lines json_loads study lines records = Ok out -> Forall P out.
Proof.
  intros HP. revert records. induction lines as [|l lines IH]; intros records Hrec.
  - cbn. intros [= <-]. exact Hrec.
  - cbn [load_lines].
    destruct (String.eqb (strip l) ""); [apply IH, Hrec|].
    destruct (json_loads (strip l)) as [obj| |e]; [|apply IH, Hrec|discriminate].
    destruct (load_record study obj) as [[o|]|e] eqn:Hobj; cbn [mbind outcome_bind];
      [|apply IH, Hrec|discriminate].
    apply IH. apply Forall_app. split; [exact Hrec|].
    constructor; [|constructor]. exact (HP obj o Hobj).
Qed.

Lemma load_files_invariant (P : observation -> Prop) study files records out :
  (forall obj o, load_record study obj = Ok (Some o) -> P o) ->
  Forall P records ->
  load_files json_loads study files records = Ok out -> Forall P out.
Proof.
  intros HP. revert records. induction files as [|f files IH]; intros records Hrec.
  - cbn. intros [= <-]. exact Hrec.
  - cbn [load_files].
    destruct (load_lines json_loads study (file_lines f) records) as [r|e] eqn:Hf;
      cbn [mbind outcome_bind]; [|discriminate].
    destruct (file_error f) as [e|]; [discriminate|].
    apply IH. exact (load_lines_invariant P study (file_lines f) records r HP Hrec Hf).
Qed.

(** X2: a frame that [load_metrics] returns is never empty, and each of
    its rows is normalised: family, role and routing mode are unchanged by
    lowercasing, and the routing mode is not the empty text. *)
Theorem load_metrics_normalized logdir pattern study paths df :
  load_metrics json_loads logdir pattern study paths = Ok df ->
  df <> [] /\ Forall normalized df.
Proof.
  unfold load_metrics. destruct paths as [|f paths]; [discriminate|].
  destruct (load_files json_loads study (f :: paths) []) as [records|e] eqn:Hload;
    cbn [mbind outcome_bind]; [|discriminate].
  destruct records as [|o records]; [discriminate|].
  intros [= <-]. split; [discriminate|].
  apply (load_files_invariant normalized study (f :: paths) [] _
           (load_record_normalized study) (List.Forall_nil _) Hload).
Qed.

End LoaderMore.

Lemma load_record_other_study study top :
  assoc "study" top <> Some (JStr study) -> load_record study (JObj top) = Ok None.
Proof.
  intros Hne. pose proof (load_record_cases study (JObj top)) as H. cbn beta iota in H.
  destruct (assoc "study" top) as [[| | | |s| |]|]; try exact H.
  destruct (String.eqb_spec s study) as [->|_]; [congruence|exact H].
Qed.

Lemma load_record_incomplete study top d :
  assoc "study" top = Some (JStr study) -> record_data top = Some d ->
  incomplete d = true -> load_record study (JObj top) = Ok None.
Proof.
  intros Hst Hd Hinc. rewrite (load_record_dict study top d Hst Hd), Hinc. reflexivity.
Qed.

(** X3: [load_record] raises exactly on a value that is not a dict and on
    a record of the requested study whose [data] is not a dict; the
    exception is then an [AttributeError]. *)
Theorem load_record_raises_iff study obj :
  (exists e, load_record study obj = Raise e) <-> malformed study obj.
Proof.
  pose proof (load_record_cases study obj) as H. unfold malformed.
  destruct obj as [| | | | | |top]; cbn beta iota in H;
    try (split; [auto|intros _; destruct H as [msg H]; eauto]).
  destruct (assoc "study" top) as [[| | | |s| |]|]; cbn beta iota in H;
    try (split; [intros [e He]; congruence|intros [[=] _]]).
  destruct (String.eqb_spec s study) as [Heq|Hne].
  - subst s. destruct (record_data top) as [d|].
    + split; [intros [e He]; congruence|intros [_ [=]]].
    + split; [auto|intros _; destruct H as [msg H]; eauto].
  - split; [intros [e He]; congruence|intros [[= ->] _]; contradiction].
Qed.

Section LoaderSkips.
Variable json_loads : string -> decoded.

Lemma record_none_passed_over study line obj :
  json_loads (strip line) = Decoded obj -> load_record study obj = Ok None ->
  passed_over json_loads study line.
Proof.
  intros Hobj Hnone rest records. cbn [load_lines].
  destruct (String.eqb (strip line) ""); [reflexivity|].
  rewrite Hobj, Hnone. reflexivity.
Qed.

(** X4: a record whose [study] is not the requested one (or is missing or
    not a text) is passed over without a look at the rest of it: with or
    without its line, [load_metrics] and the whole run give the same
    result. *)
Theorem other_study_record_is_skipped
        args files1 (before_ : list string) line after_ err files2 top fs :
  json_loads (strip line) = Decoded (JObj top) ->
  assoc "study" top <> Some (JStr (study args)) ->
  load_metrics json_loads (logdir args) (pattern args) (study args)
               (files1 ++ LogFile (before_ ++ line :: after_) err :: files2)
  = load_metrics json_loads (logdir args) (pattern args) (study args)
                 (files1 ++ LogFile (before_ ++ after_) err :: files2)
  /\ main json_loads args (files1 ++ LogFile (before_ ++ line :: after_) err :: files2) fs
     = main json_loads args (files1 ++ LogFile (before_ ++ after_) err :: files2) fs.
Proof.
  intros Hobj Hne.
  pose proof (load_metrics_insert json_loads (logdir args) (pattern args) (study args)
                files1 before_ line after_ err files2
                (record_none_passed_over _ _ _ Hobj
                   (load_record_other_study _ _ Hne))) as Heq.
  split; [exact Heq|]. unfold main. rewrite Heq. reflexivity.
Qed.

(** X5: a record of the requested study that lacks a family, a role or
    [correct] (after the choice between the two names of a field) is
    passed over: with or without its line, [load_metrics] and the whole
    run give the same result. *)
Theorem incomplete_record_is_skipped
        args files1 (before_ : list string) line after_ err files2 top d fs :
  json_loads (strip line) = Decoded (JObj top) ->
  assoc "study" top = Some (JStr (study args)) ->
  record_data top = Some d ->
  incomplete d = true ->
  load_metrics json_loads (logdir args) (pattern args) (study args)
               (files1 ++ LogFile (before_ ++ line :: after_) err :: files2)
  = load_metrics json_loads (logdir args) (pattern args) (study args)
                 (files1 ++ LogFile (before_ ++ after_) err :: files2)
  /\ main json_loads args (files1 ++ LogFile (before_ ++ line :: after_) err :: files2) fs
     = main json_loads args (files1 ++ LogFile (before_ ++ after_) err :: files2) fs.
Proof.
  intros Hobj Hst Hd Hinc.
  pose proof (load_metrics_insert json_loads (logdir args) (pattern args) (study args)
                files1 before_ line after_ err files2
                (record_none_passed_over _ _ _ Hobj
                   (load_record_incomplete _ _ _ Hst Hd Hinc))) as Heq.
  split; [exact Heq|]. unfold main. rewrite Heq. reflexivity.
Qed.

Lemma load_lines_app study (lines1 lines2 : list string) records :
  load_lines json_loads study (lines1 ++ lines2) records
  = (r ← load_lines json_loads study lines1 records;
     load_lines json_loads study lines2 r).
Proof.
  revert records. induction lines1 as [|l lines1 IH]; intros records; [reflexivity|].
  cbn [app load_lines].
  destruct (String.eqb (strip l) ""); [apply IH|].
  destruct (json_loads (strip l)) as [obj| |e]; [|apply IH|reflexivity].
  destruct (load_record study obj) as [[o|]|e]; cbn [mbind outcome_bind];
    [apply IH|apply IH|reflexivity].
Qed.

Lemma load_files_app_acc study (files1 files2 : list log_file) records :
  load_files json_loads study (files1 ++ files2) records
  = (r ← load_files json_loads study files1 records;
     load_files json_loads study files2 r).
Proof.
  revert records. induction files1 as [|f files1 IH]; intros records; [reflexivity|].
  cbn [app load_files].
  destruct (load_lines json_loads study (file_lines f) records) as [r|e];
    cbn [mbind outcome_bind]; [|reflexivity].
  destruct (file_error f) as [e|]; [reflexivity|apply IH].
Qed.

Lemma load_lines_malformed study line after_ obj :
  strip line <> "" -> json_loads (strip line) = Decoded obj -> malformed study obj ->
  exists msg, forall records,
    load_lines json_loads study (line :: after_) records = Raise (AttributeError msg).
Proof.
  intros Hnb Hobj Hbad.
  destruct (proj2 (load_record_raises_iff study obj) Hbad) as [e He].
  destruct (load_record_raise_kind study obj e He) as [msg ->].
  exists msg. intros records. cbn [load_lines].
  destruct (String.eqb_spec (strip line) ""); [contradiction|].
  rewrite Hobj, He. reflexivity.
Qed.

(** What a corpus with a malformed line gives: what is read before the
    line decides; once the line is reached, [AttributeError]. *)
Lemma load_files_malformed study files1 (before_ : list string) line after_ err files2 obj :
  strip line <> "" -> json_loads (strip line) = Decoded obj -> malformed study obj ->
  exists msg,
    load_files json_loads study
               (files1 ++ LogFile (before_ ++ line :: after_) err :: files2) []
    = (_ ← load_files json_loads study (files1 ++ [LogFile before_ None]) [];
       Raise (AttributeError msg)).
Proof.
  intros Hnb Hobj Hbad.
  destruct (load_lines_malformed study line after_ obj Hnb Hobj Hbad) as [msg Hmsg].
  exists msg. rewrite !load_files_app_acc.
  destruct (load_files json_loads study files1 []) as [r1|e]; cbn [mbind outcome_bind];
    [|reflexivity].
  cbn [load_files file_lines file_error]. rewrite load_lines_app.
  destruct (load_lines json_loads study before_ r1) as [r|e]; cbn [mbind outcome_bind];
    [|reflexivity].
  rewrite Hmsg. reflexivity.
Qed.

(** X6: one line that decodes to a value that is not a dict, or to a
    record of the requested study whose [data] is not a dict, stops the
    run wherever it stands: [load_metrics] raises, and [main] ends with
    status 1 and writes nothing. When the files and the lines before it
    are read without an exception, the exception is the [AttributeError]
    of that line. *)
Theorem malformed_line_aborts
        args files1 (before_ : list string) line after_ err files2 obj fs :
  strip line <> "" ->
  json_loads (strip line) = Decoded obj ->
  malformed (study args) obj ->
  let corpus := files1 ++ LogFile (before_ ++ line :: after_) err :: files2 in
  (exists e,
     load_metrics json_loads (logdir args) (pattern args) (study args) corpus = Raise e
     /\ main json_loads args corpus fs = (fs, Raise e)
     /\ exit_code (main json_loads args corpus fs).2 = 1)
  /\ (forall records,
        load_files json_loads (study args) (files1 ++ [LogFile before_ None]) []
        = Ok records ->
        exists msg,
          load_metrics json_loads (logdir args) (pattern args) (study args) corpus
          = Raise (AttributeError msg)
          /\ main json_loads args corpus fs = (fs, Raise (AttributeError msg))).
Proof.
  intros Hnb Hobj Hbad corpus. subst corpus.
  destruct (load_files_malformed (study args) files1 before_ line after_ err files2 obj
              Hnb Hobj Hbad) as [msg Hmsg].
  assert (Hload : forall e,
    load_files json_loads (study args)
               (files1 ++ LogFile (before_ ++ line :: after_) err :: files2) [] = Raise e ->
    load_metrics json_loads (logdir args) (pattern args) (study args)
                 (files1 ++ LogFile (before_ ++ line :: after_) err :: files2) = Raise e
    /\ main json_loads args
            (files1 ++ LogFile (before_ ++ line :: after_) err :: files2) fs
       = (fs, Raise e)).
  { intros e He.
    assert (Hm : load_metrics json_loads (logdir args) (pattern args) (study args)
                   (files1 ++ LogFile (before_ ++ line :: after_) err :: files2) = Raise e).
    { unfold load_metrics. rewrite He. destruct files1; reflexivity. }
    split; [exact Hm|]. unfold main. rewrite Hm. reflexivity. }
  split.
  - destruct (load_files json_loads (study args) (files1 ++ [LogFile before_ None]) [])
      as [r|e] eqn:Hpre; cbn [mbind outcome_bind] in Hmsg.
    + destruct (Hload _ Hmsg) as [Hm Hrun]. exists (AttributeError msg).
      rewrite Hrun. repeat split; exact Hm.
    + destruct (Hload _ Hmsg) as [Hm Hrun]. exists e.
      rewrite Hrun. repeat split; exact Hm.
  - intros records Hpre. rewrite Hpre in Hmsg. cbn [mbind outcome_bind] in Hmsg.
    exists msg. exact (Hload _ Hmsg).
Qed.

End LoaderSkips.

(** ** More on the aggregator *)

(** X7: the rows of every summary are in ascending order of
    (family, model_role). *)
Theorem summarize_sorted_by_family_role df routing :
  Sorted (fun a b => row_leb a b = true) (summarize df routing).2.
Proof.
  unfold summarize. destruct (select_routing df routing) as [printed surv].
  cbn [snd]. apply stable_sort_Sorted, row_leb_total.
Qed.

Lemma filter_perm {A} (f : A -> bool) (l l' : list A) :
  l ≡ₚ l' -> List.filter f l ≡ₚ List.filter f l'.
Proof.
  induction 1 as [|x l l' _ IH|x y l|l l' l'' _ IH1 _ IH2]; cbn [List.filter].
  - reflexivity.
  - destruct (f x); [constructor|]; exact IH.
  - destruct (f x), (f y); try reflexivity. apply Permutation_swap.
  - etransitivity; eassumption.
Qed.

Lemma existsb_perm {A} (f : A -> bool) (l l' : list A) :
  l ≡ₚ l' -> existsb f l = existsb f l'.
Proof.
  induction 1 as [|x l l' _ IH|x y l|l l' l'' _ IH1 _ IH2]; cbn [existsb].
  - reflexivity.
  - rewrite IH. reflexivity.
  - destruct (f x), (f y); reflexivity.
  - congruence.
Qed.

Lemma group_keys_perm_eq df df' : df ≡ₚ df' -> group_keys df = group_keys df'.
Proof.
  intros Hp.
  apply (Sorted_unique (fun a b => key_leb a b = true)).
  - apply stable_sort_Sorted, key_leb_total.
  - apply stable_sort_Sorted, key_leb_total.
  - apply NoDup_Permutation; [apply group_keys_NoDup|apply group_keys_NoDup|].
    intros k. rewrite !elem_of_group_keys.
    split; intros (o & Ho & Hk); exists o; split; auto.
    + rewrite <- Hp. exact Ho.
    + rewrite Hp. exact Ho.
Qed.

Lemma mean_perm g g' : g ≡ₚ g' -> mean g = mean g'.
Proof.
  intros Hp. unfold mean, count_correct.
  rewrite (Permutation_length Hp), (Permutation_length (filter_perm correct g g' Hp)).
  reflexivity.
Qed.

Lemma groupby_agg_perm df df' : df ≡ₚ df' -> groupby_agg df = groupby_agg df'.
Proof.
  intros Hp. unfold groupby_agg. rewrite (group_keys_perm_eq df df' Hp).
  apply map_ext. intros k.
  pose proof (filter_perm (fun o => bool_decide (o_key o = k)) df df' Hp) as Hg.
  fold (group_of df k) in Hg. fold (group_of df' k) in Hg.
  rewrite (Permutation_length Hg), (mean_perm _ _ Hg). reflexivity.
Qed.

(** X8: the summary does not depend on the order of the observations,
    hence not on the order of the log lines or of the files: two frames
    with the same rows in any order give the same printed lines and the
    same summary. *)
Theorem summarize_order_independent df df' routing :
  df ≡ₚ df' -> summarize df routing = summarize df' routing.
Proof.
  intros Hp. unfold summarize, select_routing.
  destruct routing as [rm|]; [|rewrite (groupby_agg_perm df df' Hp); reflexivity].
  destruct (String.eqb rm ""); [rewrite (groupby_agg_perm df df' Hp); reflexivity|].
  rewrite (existsb_perm (routing_mask (lower rm)) df df' Hp).
  destruct (existsb (routing_mask (lower rm)) df').
  - rewrite (groupby_agg_perm _ _ (filter_perm (routing_mask (lower rm)) df df' Hp)).
    reflexivity.
  - rewrite (groupby_agg_perm df df' Hp). reflexivity.
Qed.

Lemma lower_eq_nil rm1 rm2 : lower rm1 = lower rm2 -> String.eqb rm1 "" = String.eqb rm2 "".
Proof.
  intros H.
  assert (Hnil : lower "" = "") by exact (lower_ascii_text "" eq_refl).
  destruct (String.eqb_spec rm1 "") as [-> | H1], (String.eqb_spec rm2 "") as [-> | H2];
    try reflexivity; exfalso.
  - rewrite Hnil in H. symmetry in H. exact (H2 (lower_not_nil _ H)).
  - rewrite Hnil in H. exact (H1 (lower_not_nil _ H)).
Qed.

(** X9: the routing-mode filter is read without regard to case: two
    filters with the same lowercase form give the same printed lines and
    the same summary. *)
Theorem summarize_filter_case_insensitive df rm1 rm2 :
  lower rm1 = lower rm2 -> summarize df (Some rm1) = summarize df (Some rm2).
Proof.
  intros H. unfold summarize, select_routing.
  rewrite (lower_eq_nil rm1 rm2 H), H. reflexivity.
Qed.

Lemma row_of_key df routing r1 r2 :
  r1 ∈ (summarize df routing).2 -> r2 ∈ (summarize df routing).2 ->
  r_key r1 = r_key r2 -> r1 = r2.
Proof.
  intros H1 H2 Hk.
  destruct (elem_of_summarize df routing r1 H1) as (_ & Hn1 & Ha1).
  destruct (elem_of_summarize df routing r2 H2) as (_ & Hn2 & Ha2).
  destruct r1 as [k1 n1 a1], r2 as [k2 n2 a2]. cbn [r_key n accuracy] in *.
  subst. reflexivity.
Qed.

(** X10: on a normalised frame, when the filter matches some observation,
    every row of the summary has the filter, lowercased, as its routing
    mode, and there is one row at most for each (family, model_role). *)
Theorem matching_filter_one_row_per_role df rm :
  rm <> "" ->
  Forall normalized df ->
  (exists o, o ∈ df /\ lower (routing_mode (o_key o)) = lower rm) ->
  (forall r, r ∈ (summarize df (Some rm)).2 -> routing_mode (r_key r) = lower rm)
  /\ (forall r1 r2,
        r1 ∈ (summarize df (Some rm)).2 -> r2 ∈ (summarize df (Some rm)).2 ->
        family (r_key r1) = family (r_key r2) ->
        model_role (r_key r1) = model_role (r_key r2) ->
        r1 = r2).
Proof.
  intros Hrm Hnorm Hex.
  assert (Hmode : forall r, r ∈ (summarize df (Some rm)).2 ->
                            routing_mode (r_key r) = lower rm).
  { intros r Hr.
    destruct (elem_of_summarize df (Some rm) r Hr) as ((o & Ho & Hk) & _).
    rewrite (select_routing_match df rm Hrm Hex) in Ho. cbn [snd] in Ho.
    apply list_elem_of_In, filter_In in Ho as [Hin Hmask].
    apply String.eqb_eq in Hmask.
    rewrite Forall_forall in Hnorm.
    destruct (Hnorm o (proj2 (list_elem_of_In _ _) Hin)) as (_ & _ & Hlow & _).
    rewrite <- Hk, <- Hlow. exact Hmask. }
  split; [exact Hmode|].
  intros r1 r2 H1 H2 Hfam Hrole. apply (row_of_key df (Some rm)); try assumption.
  pose proof (Hmode r1 H1) as M1. pose proof (Hmode r2 H2) as M2.
  destruct (r_key r1), (r_key r2). cbn in *. congruence.
Qed.

Lemma group_size_facts df routing row :
  Z.of_nat (length df) < 9007199254740992 ->
  row ∈ (summarize df routing).2 ->
  (1 <= length (group_of (select_routing df routing).2 (r_key row)))%nat
  /\ Z.of_nat (length (group_of (select_routing df routing).2 (r_key row)))
     < 9007199254740992
  /\ accuracy row = mean (group_of (select_routing df routing).2 (r_key row)).
Proof.
  intros Hsize Hin.
  destruct (elem_of_summarize df routing row Hin) as ((o & Ho & Hkey) & Hn & Hacc).
  split; [rewrite <- Hkey; apply group_of_length_pos, Ho|].
  split; [|exact Hacc].
  assert (Hle : (length (group_of (select_routing df routing).2 (r_key row))
                 <= length df)%nat).
  { unfold group_of. etransitivity; [apply filter_length_le|apply select_routing_length]. }
  lia.
Qed.

Lemma fdiv_self n :
  0 < n < 9007199254740992 -> fdiv (float_of_Z n) (float_of_Z n) = f1.
Proof.
  intros Hn. destruct (float_of_Z_normal n Hn) as (m & -> & _ & Hm).
  pose proof (Zdigits2_le_53 n Hn) as Hd.
  unfold fdiv. cbn [SFdiv xorb].
  rewrite (SFdiv_core_normal m (Zdigits2 n - 53) m (Zdigits2 n - 53) Hm Hm
             ltac:(lia) ltac:(lia)).
  pose proof (Z_div_mod (Zpos m * 9007199254740992) (Zpos m) ltac:(lia)) as Hdm.
  destruct (Z.div_eucl (Zpos m * 9007199254740992) (Zpos m)) as [q r].
  destruct Hdm as [Hdiv Hr].
  assert (q = 9007199254740992) by nia. assert (r = 0) by nia. subst q r.
  rewrite new_location_zero.
  replace (Zdigits2 n - 53 - (Zdigits2 n - 53) - 53) with (-53) by lia.
  vm_compute. reflexivity.
Qed.

Lemma fdiv_zero n :
  0 < n < 9007199254740992 -> fdiv (float_of_Z 0) (float_of_Z n) = f0.
Proof.
  intros Hn. destruct (float_of_Z_normal n Hn) as (m & -> & _). reflexivity.
Qed.

Lemma filter_all {A} (f : A -> bool) (l : list A) :
  Forall (fun x => f x = true) l -> List.filter f l = l.
Proof.
  induction 1 as [|x l Hx _ IH]; cbn [List.filter]; [reflexivity|].
  rewrite Hx, IH. reflexivity.
Qed.

Lemma filter_none {A} (f : A -> bool) (l : list A) :
  Forall (fun x => f x = false) l -> List.filter f l = [].
Proof.
  induction 1 as [|x l Hx _ IH]; cbn [List.filter]; [reflexivity|].
  rewrite Hx. exact IH.
Qed.

(** X11: for fewer than 2^53 observations, a row whose group has every
    observation correct has accuracy exactly 1.0 and shows as 100.0 in the
    table; a row whose group has none correct has accuracy exactly 0.0 and
    shows as 0.0. *)
Theorem accuracy_extremes df routing row :
  Z.of_nat (length df) < 9007199254740992 ->
  row ∈ (summarize df routing).2 ->
  let g := group_of (select_routing df routing).2 (r_key row) in
  (Forall (fun o => correct o = true) g ->
   accuracy row = f1 /\ format_1f (fmul (accuracy row) f100) = "100.0")
  /\ (Forall (fun o => correct o = false) g ->
      accuracy row = f0 /\ format_1f (fmul (accuracy row) f100) = "0.0").
Proof.
  intros Hsize Hin g.
  destruct (group_size_facts df routing row Hsize Hin) as (Hpos & Hlt & Hacc).
  fold g in Hpos, Hlt, Hacc.
  split; intros Hall.
  - assert (Hone : accuracy row = f1).
    { rewrite Hacc. unfold mean, count_correct. rewrite (filter_all correct g Hall).
      apply fdiv_self. lia. }
    rewrite Hone. split; reflexivity.
  - assert (Hzero : accuracy row = f0).
    { rewrite Hacc. unfold mean, count_correct. rewrite (filter_none correct g Hall).
      apply fdiv_zero. lia. }
    rewrite Hzero. split; reflexivity.
Qed.

(** ** More on the renderers *)

Lemma with_role_not_nil role fam summary :
  with_role role (with_family fam summary) <> []
  <-> exists r, r ∈ summary /\ family (r_key r) = fam /\ model_role (r_key r) = role.
Proof.
  unfold with_role, with_family. split.
  - intros Hne.
    destruct (List.filter _ (List.filter _ summary)) as [|r rest] eqn:Hf; [congruence|].
    assert (Hin : In r (r :: rest)) by (left; reflexivity).
    rewrite <- Hf in Hin. apply filter_In in Hin as [Hin Hrole].
    apply filter_In in Hin as [Hin Hfam].
    exists r. split; [apply list_elem_of_In, Hin|].
    split; apply String.eqb_eq; assumption.
  - intros (r & Hin & Hfam & Hrole) Hnil.
    assert (Hr : In r (List.filter (fun r => String.eqb (model_role (r_key r)) role)
                         (List.filter (fun r => String.eqb (family (r_key r)) fam) summary))).
    { apply filter_In. split; [|apply String.eqb_eq, Hrole].
      apply filter_In. split; [apply list_elem_of_In, Hin|apply String.eqb_eq, Hfam]. }
    rewrite Hnil in Hr. destruct Hr.
Qed.

(** The callout loop in terms of the two sub-frames only. *)
Lemma callout_values_roles summary fam :
  callout_values summary fam
  = match with_role "generalist" (with_family fam summary),
          with_role "specialist" (with_family fam summary) with
    | [], _ | _, [] => None
    | gen, spec =>
        Some (first_accuracy gen, first_accuracy spec,
              fmul (fsub (first_accuracy spec) (first_accuracy gen)) f100)
    end.
Proof.
  unfold callout_values. destruct (with_family fam summary) as [|r sub] eqn:Hsub.
  - reflexivity.
  - destruct (with_role "generalist" (r :: sub)), (with_role "specialist" (r :: sub));
      reflexivity.
Qed.

Lemma callout_values_qualifies summary fam :
  callout_values summary fam <> None <-> qualifies summary fam.
Proof.
  rewrite callout_values_roles. unfold qualifies.
  rewrite <- !with_role_not_nil.
  destruct (with_role "generalist" (with_family fam summary)),
           (with_role "specialist" (with_family fam summary));
    split; try congruence; try (intros [? ?]; congruence).
  intros _. split; discriminate.
Qed.

(** X12: [write_callouts_tex] has two outcomes. When no family among psk,
    qam and analog has both roles, it writes the placeholder line and
    returns; when one has, it raises [KeyError] and leaves the store as it
    was. It never writes a macro. *)
Theorem write_callouts_tex_outcomes summary datadir fs :
  ((forall fam p, (fam, p) ∈ family_to_macro -> ~ qualifies summary fam)
   /\ write_callouts_tex summary datadir fs
      = (<[path_join datadir "specialization_callouts.tex"
           := TexFile (callouts_placeholder +:+ newline)]> fs, Ok tt))
  \/ ((exists fam p, (fam, p) ∈ family_to_macro /\ qualifies summary fam)
      /\ exists key, write_callouts_tex summary datadir fs = (fs, Raise (KeyError key))).
Proof.
  assert (Hdec : (forall fam p, (fam, p) ∈ family_to_macro -> callout_values summary fam = None)
                 \/ (exists fam p, (fam, p) ∈ family_to_macro
                                   /\ callout_values summary fam <> None)).
  { destruct (callout_values summary "psk") eqn:H1;
      [right; exists "psk", "PSK"; split; [left|congruence]|].
    destruct (callout_values summary "qam") eqn:H2;
      [right; exists "qam", "QAM"; split; [right; left|congruence]|].
    destruct (callout_values summary "analog") eqn:H3;
      [right; exists "analog", "Analog"; split; [right; right; left|congruence]|].
    left. intros fam p Hin. unfold family_to_macro in Hin.
    repeat (apply elem_of_cons in Hin as [[= -> ->]|Hin]; [assumption|]).
    inversion Hin. }
  destruct Hdec as [Hnone|Hsome].
  - left. split.
    + intros fam p Hin Hq. apply callout_values_qualifies in Hq.
      exact (Hq (Hnone fam p Hin)).
    + unfold write_callouts_tex. rewrite (callouts_text_placeholder summary Hnone).
      reflexivity.
  - right. split.
    + destruct Hsome as (fam & p & Hin & Hv). exists fam, p.
      split; [exact Hin|apply callout_values_qualifies, Hv].
    + apply write_callouts_tex_raises, Hsome.
Qed.

Lemma append_assoc_eq (a b c : string) : (a +:+ b) +:+ c = a +:+ (b +:+ c).
Proof.
  induction a as [|x a IH]; [reflexivity|].
  change (String x ((a +:+ b) +:+ c) = String x (a +:+ (b +:+ c))).
  rewrite IH. reflexivity.
Qed.

Lemma join_cons sep p (rest : list string) :
  rest <> [] -> join sep (p :: rest) = p +:+ sep +:+ join sep rest.
Proof. destruct rest; [contradiction|reflexivity]. Qed.

Lemma join_middle sep (a b : list string) x :
  a <> [] -> b <> [] ->
  join sep (a ++ x :: b) = join sep a +:+ sep +:+ x +:+ sep +:+ join sep b.
Proof.
  intros Ha Hb. induction a as [|p a IH]; [contradiction|].
  destruct a as [|q a].
  - cbn [app]. rewrite (join_cons sep p (x :: b)) by discriminate.
    rewrite (join_cons sep x b) by exact Hb. reflexivity.
  - change ((p :: q :: a) ++ x :: b) with (p :: ((q :: a) ++ x :: b)).
    rewrite (join_cons sep p ((q :: a) ++ x :: b)) by discriminate.
    rewrite (join_cons sep p (q :: a)) by discriminate.
    rewrite IH by discriminate.
    rewrite !append_assoc_eq. reflexivity.
Qed.

(** C7: when a family has rows in the summary and all of them have role
    "generalist": the table file is the fixed head, one line for every row
    of the summary in order, and the fixed foot, so each row of the family
    is a line of it; the callout loop skips the family; the family is a
    tick of the delta chart and its delta there is not-a-number; and when
    no family of the mapping has both roles, the callouts file is the
    placeholder line. *)
Theorem C7_family_without_specialist summary fam :
  (exists r, r ∈ summary /\ family (r_key r) = fam) ->
  (forall r, r ∈ summary -> family (r_key r) = fam ->
             model_role (r_key r) = "generalist") ->
  let nl := String "010"%char "" in
  let line := fun r : agg_row =>
    "    " +:+ family (r_key r) +:+ " & " +:+ model_role (r_key r) +:+ " & "
    +:+ routing_mode (r_key r) +:+ " & " +:+ format_1f (fmul (accuracy r) f100)
    +:+ " & " +:+ str_of_nat (n r) +:+ " \\" in
  let table :=
    join nl (["\begin{table}[t]";
              "  \centering";
              "  \caption{Generalist vs specialist accuracy per modulation family.}";
              "  \label{tab:specialization-results}";
              "  \begin{tabular}{llllr}";
              "    \toprule";
              "    Family & Role & Routing & Acc (\%) & $N$ \\";
              "    \midrule"]
             ++ map line summary
             ++ ["    \bottomrule"; "  \end{tabular}"; "\end{table}"; ""]) in
  (forall datadir fs,
     write_table_tex summary datadir fs !! (datadir +:+ "/specialization_table.tex")
     = Some (TexFile table))
  /\ (forall r, r ∈ summary -> family (r_key r) = fam ->
        exists pre post, table = pre +:+ nl +:+ line r +:+ nl +:+ post)
  /\ callout_values summary fam = None
  /\ (forall p rest lines,
        callout_loop summary ((fam, p) :: rest) lines = callout_loop summary rest lines)
  /\ fam ∈ families_of summary
  /\ (forall i, families_of summary !! i = Some fam ->
                family_deltas summary !! i = Some S754_nan)
  /\ (forall outdir fs,
        (plot_family_delta summary outdir fs).2 = Ok tt ->
        exists families deltas,
          (plot_family_delta summary outdir fs).1
            !! (outdir +:+ "/family_confusion_deltas.pdf")
          = Some (FigureFile (DeltaFigure families deltas))
          /\ length deltas = length families
          /\ (exists i, families !! i = Some fam)
          /\ (forall i, families !! i = Some fam -> deltas !! i = Some S754_nan))
  /\ ((forall f, f ∈ ["psk"; "qam"; "analog"] -> ~ qualifies summary f) ->
      forall datadir fs,
        write_callouts_tex summary datadir fs
        = (<[datadir +:+ "/specialization_callouts.tex"
             := TexFile ("% No specialization callouts available; generated empty file."
                         +:+ nl)]> fs,
           Ok tt)).
Proof.
  intros Hex Honly nl line table.
  assert (Hspec : with_role "specialist" (with_family fam summary) = []).
  { apply with_role_nil. intros r Hr Hfam Hrole.
    rewrite (Honly r Hr Hfam) in Hrole. discriminate. }
  assert (Hvalues : callout_values summary fam = None).
  { unfold callout_values. rewrite Hspec.
    destruct (with_family fam summary); [reflexivity|].
    destruct (with_role "generalist" _); reflexivity. }
  assert (Hdeltas : forall i, families_of summary !! i = Some fam ->
                              family_deltas summary !! i = Some S754_nan).
  { intros i Hi. unfold family_deltas. rewrite list_lookup_fmap, Hi. cbn.
    unfold delta_of. rewrite Hspec.
    destruct (with_role "generalist" _); reflexivity. }
  assert (Hfam : fam ∈ families_of summary) by (apply elem_of_families_of, Hex).
  split; [|split; [|split; [|split; [|split; [|split; [|split]]]]]].
  - intros datadir fs. unfold write_table_tex. apply lookup_insert_eq.
  - intros r Hr _. apply list_elem_of_split in Hr as (s1 & s2 & ->).
    subst table. rewrite map_app. cbn [map].
    match goal with
    | |- exists pre post, join nl (?h ++ (?a ++ ?x :: ?b) ++ ?f) = _ =>
        exists (join nl (h ++ a)), (join nl (b ++ f));
        replace (h ++ (a ++ x :: b) ++ f) with ((h ++ a) ++ x :: (b ++ f))
          by (rewrite <- !app_assoc; reflexivity)
    end.
    apply join_middle.
    + discriminate.
    + destruct (map line s2); discriminate.
  - exact Hvalues.
  - intros p rest lines. cbn [callout_loop]. rewrite Hvalues. reflexivity.
  - exact Hfam.
  - exact Hdeltas.
  - intros outdir fs. unfold plot_family_delta.
    destruct (draw (delta_figure summary)); cbn [fst snd]; [discriminate|].
    intros _. exists (families_of summary), (family_deltas summary).
    split; [apply lookup_insert_eq|]. split; [apply length_map|].
    split; [|exact Hdeltas].
    apply list_elem_of_lookup. exact Hfam.
  - intros Hnone datadir fs. unfold write_callouts_tex.
    rewrite (callouts_text_placeholder summary); [reflexivity|].
    intros f p Hin.
    destruct (callout_values summary f) eqn:Hv; [|reflexivity].
    exfalso. apply (Hnone f).
    + unfold family_to_macro in Hin.
      repeat (apply elem_of_cons in Hin as [[= -> ->]|Hin];
              [repeat constructor|]).
      inversion Hin.
    + apply callout_values_qualifies. congruence.
Qed.

(** X13: the gain chart and the callout loop agree: where the loop
    computes a gain for a family, the delta of the chart is that gain and
    the two bars of the accuracy chart are the two accuracies times 100;
    where the loop skips the family, the delta is not-a-number. *)
Theorem delta_agrees_with_callouts summary fam :
  match callout_values summary fam with
  | Some (gen_acc, spec_acc, gain) =>
      delta_of summary fam = gain
      /\ acc_cell summary fam "generalist" = fmul gen_acc f100
      /\ acc_cell summary fam "specialist" = fmul spec_acc f100
  | None => delta_of summary fam = nan
  end.
Proof.
  rewrite callout_values_roles. unfold delta_of, acc_cell.
  destruct (with_role "generalist" (with_family fam summary)),
           (with_role "specialist" (with_family fam summary));
    try reflexivity.
  repeat split; reflexivity.
Qed.

(** X14: the tick labels of both charts are the families of the summary,
    each once, in ascending order; and both charts have one entry per
    label: a chart that is drawn is written with these labels, the
    accuracy chart with a pair of bars for each and the delta chart with
    the deltas of the families; a chart that cannot be drawn leaves the
    store as it was. *)
Theorem families_of_sorted_distinct summary :
  Sorted (fun a b => str_leb a b = true) (families_of summary)
  /\ NoDup (families_of summary)
  /\ (forall fam, fam ∈ families_of summary
                  <-> exists r, r ∈ summary /\ family (r_key r) = fam)
  /\ length (family_deltas summary) = length (families_of summary)
  /\ (forall outdir fs,
        (plot_specialization_gain summary outdir fs).2 = Ok tt ->
        exists acc_matrix,
          (plot_specialization_gain summary outdir fs).1
            !! path_join outdir "specialization_gain_vs_generalist.pdf"
          = Some (FigureFile (GainFigure (families_of summary) acc_matrix))
          /\ length acc_matrix = length (families_of summary))
  /\ (forall outdir fs,
        (plot_family_delta summary outdir fs).2 = Ok tt ->
        (plot_family_delta summary outdir fs).1
          !! path_join outdir "family_confusion_deltas.pdf"
        = Some (FigureFile (DeltaFigure (families_of summary)
                                        (map (delta_of summary) (families_of summary)))))
  /\ (forall outdir fs e,
        ((plot_specialization_gain summary outdir fs).2 = Raise e ->
         (plot_specialization_gain summary outdir fs).1 = fs)
        /\ ((plot_family_delta summary outdir fs).2 = Raise e ->
            (plot_family_delta summary outdir fs).1 = fs)).
Proof.
  split; [apply stable_sort_Sorted, str_leb_total|].
  split; [rewrite families_of_perm; apply NoDup_remove_dups|].
  split; [apply elem_of_families_of|].
  split; [apply length_map|].
  split; [|split].
  - intros outdir fs. unfold plot_specialization_gain.
    destruct (draw (gain_figure summary)); cbn [fst snd]; [discriminate|].
    intros _. eexists. rewrite lookup_insert_eq. split; [reflexivity|apply length_map].
  - intros outdir fs. unfold plot_family_delta.
    destruct (draw (delta_figure summary)); cbn [fst snd]; [discriminate|].
    intros _. rewrite lookup_insert_eq. reflexivity.
  - intros outdir fs e. unfold plot_specialization_gain, plot_family_delta.
    destruct (draw (gain_figure summary)), (draw (delta_figure summary));
      cbn [fst snd]; split; (reflexivity || discriminate).
Qed.

Lemma with_role_insert role fam (before_ : list agg_row) r after_ :
  model_role (r_key r) <> role ->
  with_role role (with_family fam (before_ ++ r :: after_))
  = with_role role (with_family fam (before_ ++ after_)).
Proof.
  intros Hne. unfold with_role, with_family.
  rewrite !List.filter_app. cbn [List.filter].
  destruct (String.eqb (family (r_key r)) fam); [|reflexivity].
  cbn [List.filter]. destruct (String.eqb_spec (model_role (r_key r)) role);
    [contradiction|reflexivity].
Qed.

(** X15: a row whose role is neither "generalist" nor "specialist" has no
    part in any number that is plotted or put in a callout: with or
    without it, the callout values, the delta and the cells of the
    accuracy chart of every family are the same. *)
Theorem other_roles_are_not_plotted (before_ : list agg_row) r after_ fam :
  model_role (r_key r) <> "generalist" ->
  model_role (r_key r) <> "specialist" ->
  callout_values (before_ ++ r :: after_) fam = callout_values (before_ ++ after_) fam
  /\ delta_of (before_ ++ r :: after_) fam = delta_of (before_ ++ after_) fam
  /\ acc_cell (before_ ++ r :: after_) fam "generalist"
     = acc_cell (before_ ++ after_) fam "generalist"
  /\ acc_cell (before_ ++ r :: after_) fam "specialist"
     = acc_cell (before_ ++ after_) fam "specialist".
Proof.
  intros Hg Hs. rewrite !callout_values_roles. unfold delta_of, acc_cell.
  rewrite !(with_role_insert "generalist" fam before_ r after_ Hg).
  rewrite !(with_role_insert "specialist" fam before_ r after_ Hs).
  repeat split; reflexivity.
Qed.

(** ** More on the whole run *)

Lemma last_ascii_app s t : t <> "" -> last_ascii (s +:+ t) = last_ascii t.
Proof.
  intros Ht. induction s as [|c s IH]; [reflexivity|].
  change (String c s +:+ t) with (String c (s +:+ t)).
  destruct (s +:+ t) as [|c' u] eqn:Hst.
  - destruct s; [cbn in Hst; contradiction|discriminate].
  - rewrite <- IH. reflexivity.
Qed.

Lemma tex_path_ne_pdf_path dir1 dir2 name1 name2 :
  last_ascii name1 = Some "x"%char -> last_ascii name2 = Some "f"%char ->
  path_join dir1 name1 <> path_join dir2 name2.
Proof.
  intros H1 H2 Heq. apply (f_equal last_ascii) in Heq. unfold path_join in Heq.
  rewrite !last_ascii_app in Heq.
  - congruence.
  - destruct name2; discriminate.
  - destruct name2; discriminate.
  - destruct name1; discriminate.
  - destruct name1; discriminate.
Qed.

Lemma pdf_path_ne_tex_path dir1 dir2 name1 name2 :
  last_ascii name1 = Some "f"%char -> last_ascii name2 = Some "x"%char ->
  path_join dir1 name1 <> path_join dir2 name2.
Proof.
  intros H1 H2 Heq. symmetry in Heq. revert Heq.
  apply tex_path_ne_pdf_path; assumption.
Qed.

Section MainMore.
Variable json_loads : string -> decoded.

(** X16: the run changes no path but its four fixed names; and when
    [load_metrics] raises, it changes nothing at all. *)
Theorem main_touches_only_its_files args paths fs :
  (forall k,
     k <> path_join (outdir args) "specialization_gain_vs_generalist.pdf" ->
     k <> path_join (outdir args) "family_confusion_deltas.pdf" ->
     k <> path_join (datadir args) "specialization_callouts.tex" ->
     k <> path_join (datadir args) "specialization_table.tex" ->
     (main json_loads args paths fs).1 !! k = fs !! k)
  /\ (forall e,
        load_metrics json_loads (logdir args) (pattern args) (study args) paths = Raise e ->
        main json_loads args paths fs = (fs, Raise e)).
Proof.
  split.
  - intros k K1 K2 K3 K4. unfold main.
    destruct (load_metrics json_loads (logdir args) (pattern args) (study args) paths)
      as [df|e]; [|reflexivity].
    unfold write_callouts_tex, write_table_tex, plot_family_delta,
      plot_specialization_gain.
    destruct (draw (gain_figure (summarize df (Some (arg_routing_mode args))).2));
      [reflexivity|].
    destruct (draw (delta_figure (summarize df (Some (arg_routing_mode args))).2));
      [cbn [fst snd]; rewrite !lookup_insert_ne by congruence; reflexivity|].
    destruct (callouts_text (summarize df (Some (arg_routing_mode args))).2)
      as [text|e]; cbn [fst snd]; rewrite !lookup_insert_ne by congruence; reflexivity.
  - intros e He. unfold main. rewrite He. reflexivity.
Qed.

(** X17: the run ends with status 0 exactly when [load_metrics] returns a
    frame, both figures of its summary are drawn, and in the summary no
    family among psk, qam and analog has both roles. When the figures are
    drawn and a family has both roles, the run ends with [KeyError] and
    status 1, the two figures written and the two TeX files as they were.
    When a figure cannot be drawn, the run ends there with the exception
    of the drawing and the TeX files as they were. *)
Theorem main_exit_status args paths fs :
  (exit_code (main json_loads args paths fs).2 = 0
   <-> exists df,
         load_metrics json_loads (logdir args) (pattern args) (study args) paths = Ok df
         /\ draw (gain_figure (summarize df (Some (arg_routing_mode args))).2) = None
         /\ draw (delta_figure (summarize df (Some (arg_routing_mode args))).2) = None
         /\ forall fam p, (fam, p) ∈ family_to_macro ->
              ~ qualifies (summarize df (Some (arg_routing_mode args))).2 fam)
  /\ (forall df fam p,
        load_metrics json_loads (logdir args) (pattern args) (study args) paths = Ok df ->
        draw (gain_figure (summarize df (Some (arg_routing_mode args))).2) = None ->
        draw (delta_figure (summarize df (Some (arg_routing_mode args))).2) = None ->
        (fam, p) ∈ family_to_macro ->
        qualifies (summarize df (Some (arg_routing_mode args))).2 fam ->
        (exists key, (main json_loads args paths fs).2 = Raise (KeyError key))
        /\ exit_code (main json_loads args paths fs).2 = 1
        /\ is_Some ((main json_loads args paths fs).1
                      !! path_join (outdir args) "specialization_gain_vs_generalist.pdf")
        /\ is_Some ((main json_loads args paths fs).1
                      !! path_join (outdir args) "family_confusion_deltas.pdf")
        /\ (main json_loads args paths fs).1
             !! path_join (datadir args) "specialization_callouts.tex"
           = fs !! path_join (datadir args) "specialization_callouts.tex"
        /\ (main json_loads args paths fs).1
             !! path_join (datadir args) "specialization_table.tex"
           = fs !! path_join (datadir args) "specialization_table.tex")
  /\ (forall df e,
        load_metrics json_loads (logdir args) (pattern args) (study args) paths = Ok df ->
        (draw (gain_figure (summarize df (Some (arg_routing_mode args))).2) = Some e
         \/ (draw (gain_figure (summarize df (Some (arg_routing_mode args))).2) = None
             /\ draw (delta_figure (summarize df (Some (arg_routing_mode args))).2)
                = Some e)) ->
        (main json_loads args paths fs).2 = Raise e
        /\ (main json_loads args paths fs).1
             !! path_join (datadir args) "specialization_callouts.tex"
           = fs !! path_join (datadir args) "specialization_callouts.tex"
        /\ (main json_loads args paths fs).1
             !! path_join (datadir args) "specialization_table.tex"
           = fs !! path_join (datadir args) "specialization_table.tex").
Proof.
  split; [|split].
  - unfold main.
    destruct (load_metrics json_loads (logdir args) (pattern args) (study args) paths)
      as [df|e] eqn:Hload.
    + set (summary := (summarize df (Some (arg_routing_mode args))).2).
      unfold plot_specialization_gain, plot_family_delta.
      destruct (draw (gain_figure summary)) as [e1|] eqn:Hgain.
      { cbn [snd exit_code]. split; [discriminate|].
        intros (df' & [= <-] & Hg & _). fold summary in Hg. congruence. }
      destruct (draw (delta_figure summary)) as [e2|] eqn:Hdelta.
      { cbn [snd exit_code]. split; [discriminate|].
        intros (df' & [= <-] & _ & Hd & _). fold summary in Hd. congruence. }
      destruct (write_callouts_tex_outcomes summary (datadir args)
                  (<[path_join (outdir args) "family_confusion_deltas.pdf"
                     := FigureFile (delta_figure summary)]>
                     (<[path_join (outdir args) "specialization_gain_vs_generalist.pdf"
                        := FigureFile (gain_figure summary)]> fs)))
        as [[Hnone ->]|[(fam & p & Hin & Hq) [key ->]]]; cbn [snd exit_code].
      * split; [|reflexivity]. intros _. exists df.
        split; [reflexivity|]. fold summary. auto.
      * split; [discriminate|]. intros (df' & [= <-] & _ & _ & Hnone).
        exfalso. exact (Hnone fam p Hin Hq).
    + cbn [snd exit_code]. split; [discriminate|]. intros (df & [=] & _).
  - intros df fam p Hload Hgain Hdelta Hin Hq. unfold main. rewrite Hload.
    set (summary := (summarize df (Some (arg_routing_mode args))).2) in *.
    unfold plot_specialization_gain, plot_family_delta. rewrite Hgain, Hdelta.
    destruct (write_callouts_tex_outcomes summary (datadir args)
                (<[path_join (outdir args) "family_confusion_deltas.pdf"
                   := FigureFile (delta_figure summary)]>
                   (<[path_join (outdir args) "specialization_gain_vs_generalist.pdf"
                      := FigureFile (gain_figure summary)]> fs)))
      as [[Hnone _]|[_ [key ->]]].
    { exfalso. exact (Hnone fam p Hin Hq). }
    cbn [fst snd exit_code].
    split; [eexists; reflexivity|]. split; [reflexivity|].
    split; [rewrite lookup_insert; case_decide;
            [|rewrite lookup_insert_eq]; eexists; reflexivity|].
    split; [rewrite lookup_insert_eq; eexists; reflexivity|].
    split; rewrite !lookup_insert_ne by (apply pdf_path_ne_tex_path; reflexivity);
      reflexivity.
  - intros df e Hload Hdraw. unfold main. rewrite Hload.
    set (summary := (summarize df (Some (arg_routing_mode args))).2) in *.
    unfold plot_specialization_gain, plot_family_delta.
    destruct Hdraw as [Hgain|[Hgain Hdelta]].
    + rewrite Hgain. cbn [fst snd]. repeat split; reflexivity.
    + rewrite Hgain, Hdelta. cbn [fst snd]. split; [reflexivity|].
      split; rewrite !lookup_insert_ne by (apply pdf_path_ne_tex_path; reflexivity);
        reflexivity.
Qed.

End MainMore.

End Properties.
(** * The properties at the examples *)

(** From here on the library is [example_lib]. *)
#[local] Existing Instance example_lib.



Lemma C4_load_record_fields_witness :
  exists o,
    load_record "s" (example_record "PSK" "Generalist" true) = Ok (Some o)
    /\ family (o_key o) = "psk"
    /\ model_role (o_key o) = "generalist"
    /\ routing_mode (o_key o) = "none"
    /\ correct o = true.
Proof.
  destruct (C4_load_record_fields "s"
              [("study", JStr "s");
               ("data", JObj [("family", JStr "PSK"); ("model_role", JStr "Generalist");
                              ("correct", JBool true)])]
              [("family", JStr "PSK"); ("model_role", JStr "Generalist");
               ("correct", JBool true)]
              eq_refl eq_refl) as [_ Hkeep].
  destruct (Hkeep eq_refl) as (o & Hload & Hfam & Hrole & Hmode & Hcorr & _).
  exists o. repeat split; assumption.
Defined.

(** C4 as stated fails: a record whose family is the number 0 has all of
    family, role and [correct], and the extractor drops it, where the
    wording of the specification keeps it with family ["0"]. *)
Lemma C4_counterexample :
  record_data [("study", JStr "s"); ("data", JObj data_family_zero)]
  = Some data_family_zero
  /\ load_record "s" (JObj [("study", JStr "s"); ("data", JObj data_family_zero)])
     = Ok None
  /\ spec_normalize data_family_zero
     = Some {| o_key := {| family := "0"; model_role := "generalist";
                           routing_mode := "none" |};
               correct := true |}
  /\ load_record "s" (JObj [("study", JStr "s"); ("data", JObj data_family_zero)])
     <> Ok (spec_normalize data_family_zero).
Proof. repeat split; try reflexivity. discriminate. Qed.

Lemma C5_routing_filter_soft_fail_witness :
  summarize [ {| o_key := {| family := "psk"; model_role := "generalist";
                             routing_mode := "oracle" |};
                 correct := true |} ] (Some "Predicted")
  = (["[!] No entries found for routing_mode=predicted; using all routing modes."],
     [ {| r_key := {| family := "psk"; model_role := "generalist";
                      routing_mode := "oracle" |};
          n := 1; accuracy := f1 |} ]).
Proof.
  refine (proj1 (proj2 (C5_routing_filter_soft_fail
            [ {| o_key := {| family := "psk"; model_role := "generalist";
                             routing_mode := "oracle" |};
                 correct := true |} ] "Predicted" _ _) _)).
  - discriminate.
  - discriminate.
  - intros o Ho. apply list_elem_of_singleton in Ho. subst o. discriminate.
Defined.

Lemma C8_first_row_only_witness :
  callout_values
    ({| r_key := {| family := "psk"; model_role := "generalist"; routing_mode := "predicted" |};
        n := 4; accuracy := f0 |} :: example_summary) "psk"
  = Some (f0, f1, f100).
Proof.
  refine (proj1 (C8_first_row_only
    ({| r_key := {| family := "psk"; model_role := "generalist"; routing_mode := "predicted" |};
        n := 4; accuracy := f0 |} :: example_summary) "psk"
    {| r_key := {| family := "psk"; model_role := "generalist"; routing_mode := "predicted" |};
       n := 4; accuracy := f0 |}
    {| r_key := {| family := "psk"; model_role := "specialist"; routing_mode := "oracle" |};
       n := 1; accuracy := f1 |} _ _)); reflexivity.
Defined.

Lemma C7_family_without_specialist_witness :
  callout_values (take 1 example_summary) "analog" = None
  /\ write_table_tex (take 1 example_summary) "data" ∅ !! "data/specialization_table.tex"
     = Some (TexFile
               (join (String "010"%char "")
                     ["\begin{table}[t]";
                      "  \centering";
                      "  \caption{Generalist vs specialist accuracy per modulation family.}";
                      "  \label{tab:specialization-results}";
                      "  \begin{tabular}{llllr}";
                      "    \toprule";
                      "    Family & Role & Routing & Acc (\%) & $N$ \\";
                      "    \midrule";
                      "    analog & generalist & oracle & 100.0 & 1 \\";
                      "    \bottomrule"; "  \end{tabular}"; "\end{table}"; ""]))
  /\ (plot_family_delta (take 1 example_summary) "figs" ∅).1
       !! "figs/family_confusion_deltas.pdf"
     = Some (FigureFile (DeltaFigure ["analog"] [S754_nan]))
  /\ write_callouts_tex (take 1 example_summary) "data" ∅
     = (<["data/specialization_callouts.tex"
          := TexFile ("% No specialization callouts available; generated empty file."
                      +:+ String "010"%char "")]> ∅, Ok tt).
Proof.
  assert (Hex : exists r, r ∈ take 1 example_summary /\ family (r_key r) = "analog").
  { eexists. split; [left|reflexivity]. }
  assert (Honly : forall r, r ∈ take 1 example_summary -> family (r_key r) = "analog" ->
                            model_role (r_key r) = "generalist").
  { intros r Hr _. apply list_elem_of_singleton in Hr. subst r. reflexivity. }
  destruct (C7_family_without_specialist (take 1 example_summary) "analog" Hex Honly)
    as (Htable & _ & Hvalues & _ & _ & _ & _ & Hplace).
  split; [exact Hvalues|]. split; [exact (Htable "data" ∅)|].
  split; [reflexivity|].
  apply Hplace. intros f _ [_ (s & Hs & _ & Hrole)].
  apply list_elem_of_singleton in Hs. subst s. discriminate.
Defined.

Lemma C6_run_with_records_exits_nonzero_witness :
  exit_code (main example_loads example_args [text_file ["G+"; "S+"]] ∅).2 = 1
  /\ (main example_loads example_args [text_file ["G+"; "S+"]] ∅).2
     = Raise (KeyError "\PSKGeneralistAcc").
Proof.
  destruct (C6_run_with_records_exits_nonzero example_loads "G+" "S+")
    as (_ & Hexit & _ & _ & Hdrawn); try first [discriminate | reflexivity].
  split; [exact Hexit|exact (proj1 (Hdrawn eq_refl eq_refl))].
Defined.

Lemma C3_row_count_and_accuracy_witness :
  Z.of_nat (length example_observations) < 9007199254740992
  /\ (summarize example_observations None).2 = [example_row]
  /\ (1 <= n example_row)%nat
  /\ n example_row = length (group_of example_observations (r_key example_row))
  /\ fleb f0 (accuracy example_row) = true
  /\ fleb (accuracy example_row) f1 = true.
Proof.
  assert (Hsize : Z.of_nat (length example_observations) < 9007199254740992)
    by (vm_compute; reflexivity).
  assert (Hin : example_row ∈ (summarize example_observations None).2)
    by (apply list_elem_of_In; left; reflexivity).
  destruct (C3_row_count_and_accuracy example_observations None example_row Hsize Hin)
    as (Hpos & Hn & _ & _ & H0 & H1).
  split; [exact Hsize|]. split; [reflexivity|].
  split; [exact Hpos|]. split; [exact Hn|]. split; [exact H0|exact H1].
Defined.

Lemma load_metrics_normalized_witness :
  Forall normalized
    [ {| o_key := {| family := "psk"; model_role := "generalist"; routing_mode := "none" |};
         correct := true |} ].
Proof.
  exact (proj2 (load_metrics_normalized example_loads "../logs" "metrics_*.jsonl" "s"
                  [text_file ["G+"]] _ eq_refl)).
Defined.

Lemma other_study_record_is_skipped_witness :
  main example_loads_more example_args [text_file ["G+"; "O+"; "G-"]] ∅
  = main example_loads_more example_args [text_file ["G+"; "G-"]] ∅.
Proof.
  refine (proj2 (other_study_record_is_skipped example_loads_more example_args
                   [] ["G+"] "O+" ["G-"] None []
                   [("study", JStr "other"); ("data", JNull)] ∅ eq_refl _)).
  discriminate.
Defined.

Lemma incomplete_record_is_skipped_witness :
  main example_loads_more example_args [text_file ["G+"; "I+"; "G-"]] ∅
  = main example_loads_more example_args [text_file ["G+"; "G-"]] ∅.
Proof.
  exact (proj2 (incomplete_record_is_skipped example_loads_more example_args
                  [] ["G+"] "I+" ["G-"] None []
                  [("study", JStr "s");
                   ("data", JObj [("family", JStr "psk"); ("correct", JBool true)])]
                  [("family", JStr "psk"); ("correct", JBool true)] ∅
                  eq_refl eq_refl eq_refl eq_refl)).
Defined.

Lemma malformed_line_aborts_witness :
  exists msg,
    main example_loads_more example_args [text_file ["G+"; "[]"; "S+"]] ∅
    = (∅, Raise (AttributeError msg)).
Proof.
  destruct (malformed_line_aborts example_loads_more example_args
              [] ["G+"] "[]" ["S+"] None [] (JArr []) ∅) as [_ Hattr].
  - discriminate.
  - reflexivity.
  - exact I.
  - destruct (Hattr _ eq_refl) as (msg & _ & Hmain). exists msg. exact Hmain.
Defined.

Lemma summarize_order_independent_witness :
  summarize example_observations None = summarize (rev example_observations) None.
Proof.
  apply summarize_order_independent. apply Permutation_swap.
Defined.

Lemma summarize_filter_case_insensitive_witness :
  summarize example_observations (Some "NONE") = summarize example_observations (Some "none").
Proof.
  apply summarize_filter_case_insensitive. reflexivity.
Defined.

Lemma matching_filter_one_row_per_role_witness :
  routing_mode (r_key example_row) = "none".
Proof.
  refine (proj1 (matching_filter_one_row_per_role example_observations "None" _ _ _)
                example_row _).
  - discriminate.
  - repeat constructor; discriminate.
  - eexists. split; [left|reflexivity].
  - apply list_elem_of_In. left. reflexivity.
Defined.

Lemma accuracy_extremes_witness :
  accuracy {| r_key := {| family := "psk"; model_role := "generalist";
                          routing_mode := "none" |};
              n := 1; accuracy := f1 |} = f1
  /\ format_1f (fmul f1 f100) = "100.0".
Proof.
  refine (proj1 (accuracy_extremes (take 1 example_observations) None
                   {| r_key := {| family := "psk"; model_role := "generalist";
                                  routing_mode := "none" |};
                      n := 1; accuracy := f1 |} _ _) _).
  - vm_compute. reflexivity.
  - apply list_elem_of_In. left. reflexivity.
  - repeat constructor.
Defined.

Lemma other_roles_are_not_plotted_witness :
  callout_values (example_summary ++ [example_expert_row]) "psk"
  = callout_values (example_summary ++ []) "psk".
Proof.
  refine (proj1 (other_roles_are_not_plotted example_summary example_expert_row [] "psk" _ _));
    discriminate.
Defined.

